(** * veeam-monitor: the parser, the digest formatter, the configuration
      loader and the poll cycle of [main.go], with the properties of its
      specification.

    Go strings are byte sequences: a [gostring] is a [list ascii].  The
    functions of Go's [strings], [unicode] and [unicode/utf8] packages that
    [main.go] calls are modelled in [GoLib]; the program itself is in
    [VeeamMonitor]. *)

From Stdlib Require Import Ascii String DecimalString.
From Stdlib Require Import Bool Arith ZArith NArith Lia List Permutation.
Import ListNotations.

Open Scope string_scope.
Open Scope nat_scope.
Open Scope list_scope.

(** ** The Go library functions used by the program *)

Module GoLib.

Definition gostring : Type := list ascii.

(** String literals are read as byte sequences. *)
Coercion list_ascii_of_string : string >-> list.

Definition byteN (b : ascii) : N := N_of_ascii b.

(** [s[i]] for an index that the caller has checked. *)
Definition byteAt (s : gostring) (i : nat) : N := byteN (nth i s zero).

Fixpoint eqs (a b : gostring) : bool :=
  match a, b with
  | [], [] => true
  | x :: a', y :: b' => Ascii.eqb x y && eqs a' b'
  | _, _ => false
  end.

(** *** strings.Split, for the one-byte separators of the program *)

Fixpoint Split (s : gostring) (sep : ascii) : list gostring :=
  match s with
  | [] => [[]]
  | c :: s' =>
      if Ascii.eqb c sep then [] :: Split s' sep
      else match Split s' sep with
           | [] => [[c]]
           | f :: fs => (c :: f) :: fs
           end
  end.

(** *** strings.Join *)

Fixpoint Join (elems : list gostring) (sep : gostring) : gostring :=
  match elems with
  | [] => []
  | [e] => e
  | e :: rest => e ++ sep ++ Join rest sep
  end.

(** *** strings.Trim with a cutset of one ASCII byte *)

Fixpoint trimLeftByte (s : gostring) (c : ascii) : gostring :=
  match s with
  | [] => []
  | b :: s' => if Ascii.eqb b c then trimLeftByte s' c else s
  end.

Definition trimRightByte (s : gostring) (c : ascii) : gostring :=
  rev (trimLeftByte (rev s) c).

Definition Trim (s : gostring) (c : ascii) : gostring :=
  trimLeftByte (trimRightByte s c) c.

(** *** unicode/utf8 *)

Definition RuneError : N := 0xFFFD.
Definition RuneSelf : N := 0x80.
Definition UTFMax : nat := 4.

Definition locb : N := 0x80.
Definition hicb : N := 0xBF.
Definition maskx : N := 0x3F.
Definition mask2 : N := 0x1F.
Definition mask3 : N := 0x0F.
Definition mask4 : N := 0x07.

(** The entries of the table [first]: the low three bits are the size of
    the encoding, the high four bits index [acceptRanges]. *)
Definition xx : N := 0xF1.  (* invalid: size 1 *)
Definition as_ : N := 0xF0. (* ASCII: size 1 *)
Definition s1 : N := 0x02.
Definition s2 : N := 0x13.
Definition s3 : N := 0x03.
Definition s4 : N := 0x23.
Definition s5 : N := 0x34.
Definition s6 : N := 0x04.
Definition s7 : N := 0x44.

Definition first (b : N) : N :=
  if (b <? 0x80)%N then as_
  else if (b <? 0xC2)%N then xx
  else if (b <? 0xE0)%N then s1
  else if (b =? 0xE0)%N then s2
  else if (b <? 0xED)%N then s3
  else if (b =? 0xED)%N then s4
  else if (b <? 0xF0)%N then s3
  else if (b =? 0xF0)%N then s5
  else if (b <? 0xF4)%N then s6
  else if (b =? 0xF4)%N then s7
  else xx.

Definition acceptRanges (i : N) : N * N :=
  if (i =? 0)%N then (locb, hicb)
  else if (i =? 1)%N then (0xA0, hicb)%N
  else if (i =? 2)%N then (locb, 0x9F)%N
  else if (i =? 3)%N then (0x90, hicb)%N
  else if (i =? 4)%N then (locb, 0x8F)%N
  else (0, 0)%N.

(** utf8.DecodeRuneInString: the first rune of [s] and its width in bytes;
    [(RuneError, 0)] on the empty string and [(RuneError, 1)] on an invalid
    encoding. *)
Definition DecodeRuneInString (s : gostring) : N * nat :=
  let n := length s in
  if n <? 1 then (RuneError, 0)
  else
    let b0 := byteAt s 0 in
    let x := first b0 in
    if (as_ <=? x)%N then
      (* the mask of the Go code is all ones exactly when x = xx *)
      ((if N.odd x then RuneError else b0), 1)
    else
      let sz := N.to_nat (N.land x 7) in
      let accept := acceptRanges (N.shiftr x 4) in
      if n <? sz then (RuneError, 1)
      else
        let b1 := byteAt s 1 in
        if ((b1 <? fst accept) || (snd accept <? b1))%N then (RuneError, 1)
        else if sz <=? 2 then
          (N.lor (N.shiftl (N.land b0 mask2) 6) (N.land b1 maskx), 2)
        else
          let b2 := byteAt s 2 in
          if ((b2 <? locb) || (hicb <? b2))%N then (RuneError, 1)
          else if sz <=? 3 then
            (N.lor (N.lor (N.shiftl (N.land b0 mask3) 12)
                          (N.shiftl (N.land b1 maskx) 6))
                   (N.land b2 maskx), 3)
          else
            let b3 := byteAt s 3 in
            if ((b3 <? locb) || (hicb <? b3))%N then (RuneError, 1)
            else
              (N.lor (N.lor (N.lor (N.shiftl (N.land b0 mask4) 18)
                                   (N.shiftl (N.land b1 maskx) 12))
                            (N.shiftl (N.land b2 maskx) 6))
                     (N.land b3 maskx), 4).

(** utf8.RuneStart: [b] is not a continuation byte. *)
Definition RuneStart (b : N) : bool :=
  negb (N.land b 0xC0 =? 0x80)%N.

(** The loop [for start--; start >= lim; start-- { if RuneStart(s[start])
    { break } }] of utf8.DecodeLastRuneInString; it runs its body at most
    [UTFMax - 1] times. *)
Fixpoint backUp (fuel : nat) (s : gostring) (start lim : Z) : Z :=
  match fuel with
  | 0 => start
  | S k =>
      if (start <? lim)%Z then start
      else if RuneStart (byteAt s (Z.to_nat start)) then start
      else backUp k s (start - 1)%Z lim
  end.

(** utf8.DecodeLastRuneInString: the last rune of [s] and its width. *)
Definition DecodeLastRuneInString (s : gostring) : N * nat :=
  let e := length s in
  if e =? 0 then (RuneError, 0)
  else
    let start := e - 1 in
    let r := byteAt s start in
    if (r <? RuneSelf)%N then (r, 1)
    else
      let lim := Z.max 0 (Z.of_nat e - Z.of_nat UTFMax) in
      let start := backUp UTFMax s (Z.of_nat start - 1) lim in
      let start := Z.to_nat (Z.max 0 start) in
      let '(r, size) := DecodeRuneInString (skipn start s) in
      if start + size =? e then (r, size) else (RuneError, 1).

(** *** unicode.IsSpace *)

Definition MaxLatin1 : N := 0xFF.

(** The ranges of [unicode.White_Space] above Latin-1. *)
Definition White_Space_excludingLatin : list (N * N) :=
  [ (0x1680, 0x1680); (0x2000, 0x200a); (0x2028, 0x2029);
    (0x202f, 0x202f); (0x205f, 0x205f); (0x3000, 0x3000) ]%N.

Definition IsSpace (r : N) : bool :=
  if (r <=? MaxLatin1)%N then
    (r =? 0x09)%N || (r =? 0x0A)%N || (r =? 0x0B)%N || (r =? 0x0C)%N
    || (r =? 0x0D)%N || (r =? 0x20)%N || (r =? 0x85)%N || (r =? 0xA0)%N
  else
    existsb (fun '(lo, hi) => (lo <=? r)%N && (r <=? hi)%N)
            White_Space_excludingLatin.

(** *** strings.TrimLeftFunc, strings.TrimRightFunc, strings.TrimSpace *)

(** strings.indexFunc: the loop [for i, r := range s]; [None] is Go's -1. *)
Fixpoint indexFunc_loop (fuel : nat) (s : gostring) (f : N -> bool)
    (truth : bool) (i : nat) : option nat :=
  match fuel with
  | 0 => None
  | S k =>
      if length s <=? i then None
      else
        let '(r, size) := DecodeRuneInString (skipn i s) in
        if Bool.eqb (f r) truth then Some i
        else indexFunc_loop k s f truth (i + size)
  end.

Definition indexFunc (s : gostring) (f : N -> bool) (truth : bool)
    : option nat :=
  indexFunc_loop (S (length s)) s f truth 0.

(** strings.lastIndexFunc: the loop [for i := len(s); i > 0; ]. *)
Fixpoint lastIndexFunc_loop (fuel : nat) (s : gostring) (f : N -> bool)
    (truth : bool) (i : nat) : option nat :=
  match fuel with
  | 0 => None
  | S k =>
      if i =? 0 then None
      else
        let '(r, size) := DecodeLastRuneInString (firstn i s) in
        let i := i - size in
        if Bool.eqb (f r) truth then Some i
        else lastIndexFunc_loop k s f truth i
  end.

Definition lastIndexFunc (s : gostring) (f : N -> bool) (truth : bool)
    : option nat :=
  lastIndexFunc_loop (S (length s)) s f truth (length s).

Definition TrimLeftFunc (s : gostring) (f : N -> bool) : gostring :=
  match indexFunc s f false with
  | None => []
  | Some i => skipn i s
  end.

Definition TrimRightFunc (s : gostring) (f : N -> bool) : gostring :=
  match lastIndexFunc s f false with
  | Some i =>
      if (RuneSelf <=? byteAt s i)%N then
        let '(_, wid) := DecodeRuneInString (skipn i s) in
        firstn (i + wid) s
      else firstn (i + 1) s
  | None => firstn 0 s
  end.

(** strings.TrimSpace removes the leading and trailing white space, as
    Unicode defines it: [TrimFunc(s, unicode.IsSpace)]. *)
Definition TrimSpace (s : gostring) : gostring :=
  TrimRightFunc (TrimLeftFunc s IsSpace) IsSpace.

(** *** fmt's verb %d *)

Definition itoa (z : Z) : gostring :=
  NilZero.string_of_int (Z.to_int z).

(** *** Predicates on byte strings used to state the properties *)

(** What a decoding step tells about the bytes it consumed. *)
Definition DecodeSpec (s : gostring) (p : N * nat) : Prop :=
  let '(r, sz) := p in
  (sz = 1 /\ (((byteAt s 0 < 0x80)%N /\ r = byteAt s 0) \/ r = RuneError)) \/
  (2 <= sz <= length s /\
   Forall (fun b => (0x80 <= byteN b)%N) (firstn sz s) /\
   forall u, DecodeRuneInString (firstn sz s ++ u) = (r, sz)).

(** The string consists of white-space runes only: the loop
    [for _, r := range s] meets no rune with [!unicode.IsSpace(r)]. *)
Fixpoint allRunes_loop (fuel : nat) (s : gostring) (f : N -> bool) : bool :=
  match s with
  | [] => true
  | _ :: _ =>
      match fuel with
      | 0 => false
      | S k =>
          let '(r, size) := DecodeRuneInString s in
          f r && allRunes_loop k (skipn size s) f
      end
  end.

Definition whitespaceOnly (s : gostring) : bool :=
  allRunes_loop (length s) s IsSpace.

(** A line feed and a tab, for the examples. *)
Definition nl_tab : gostring := ["010"%char; "009"%char].

(** The same, as a derivation: the string is cut into white-space runes. *)
Inductive SpaceRunes : gostring -> Prop :=
| SpaceRunes_nil : SpaceRunes []
| SpaceRunes_cons (s : gostring) (r : N) (size : nat) :
    s <> [] -> DecodeRuneInString s = (r, size) -> IsSpace r = true ->
    SpaceRunes (skipn size s) -> SpaceRunes s.

End GoLib.

Import GoLib.

(** ** The program *)

Module VeeamMonitor.

Definition nl : gostring := ["010"%char].
Definition crlf : gostring := ["013"%char; "010"%char].
Definition quote : ascii := "034"%char.
Definition comma : ascii := ","%char.
Definition period : ascii := "."%char.
Definition newline : ascii := "010"%char.

(** A Go [error], by its message. *)
Definition error : Type := gostring.

(** [type Config struct]; a Go [int] field is a [Z]. *)
Record Config : Type := mkConfig {
  VeeamPowerShellModule : gostring;
  VeeamServerAddress : gostring;
  CheckIntervalMinutes : Z;
  SMTPServer : gostring;
  SMTPPort : Z;
  EmailFrom : gostring;
  EmailTo : list gostring;
  EmailPassword : gostring;
  MonitorFailedJobs : bool;
  MonitorWarningJobs : bool;
  MonitorRunningJobs : bool;
  LongRunningThreshold : Z
}.

Definition setCheckIntervalMinutes (config : Config) (v : Z) : Config :=
  mkConfig (VeeamPowerShellModule config) (VeeamServerAddress config) v
           (SMTPServer config) (SMTPPort config) (EmailFrom config)
           (EmailTo config) (EmailPassword config)
           (MonitorFailedJobs config) (MonitorWarningJobs config)
           (MonitorRunningJobs config) (LongRunningThreshold config).

Definition setMonitorFailedJobs (config : Config) (v : bool) : Config :=
  mkConfig (VeeamPowerShellModule config) (VeeamServerAddress config)
           (CheckIntervalMinutes config) (SMTPServer config)
           (SMTPPort config) (EmailFrom config) (EmailTo config)
           (EmailPassword config) v (MonitorWarningJobs config)
           (MonitorRunningJobs config) (LongRunningThreshold config).

Definition setLongRunningThreshold (config : Config) (v : Z) : Config :=
  mkConfig (VeeamPowerShellModule config) (VeeamServerAddress config)
           (CheckIntervalMinutes config) (SMTPServer config)
           (SMTPPort config) (EmailFrom config) (EmailTo config)
           (EmailPassword config) (MonitorFailedJobs config)
           (MonitorWarningJobs config) (MonitorRunningJobs config) v.

(** [var config Config]: every field has its zero value. *)
Definition zeroConfig : Config :=
  mkConfig [] [] 0 [] 0 [] [] [] false false false 0.

(** [type JobStatus struct] *)
Record JobStatus : Type := mkJobStatus {
  Name : gostring;
  Status : gostring;
  StartTime : gostring;
  EndTime : gostring;
  Description : gostring;
  Duration : gostring
}.

Definition setDuration (job : JobStatus) (d : gostring) : JobStatus :=
  mkJobStatus (Name job) (Status job) (StartTime job) (EndTime job)
              (Description job) d.

Definition setDescription (job : JobStatus) (d : gostring) : JobStatus :=
  mkJobStatus (Name job) (Status job) (StartTime job) (EndTime job)
              d (Duration job).

(** *** parseJobStatusOutput *)

(** The body of the loop over [lines[1:]]: [jobs] after the iteration on
    [lines[i]]. *)
Definition parseLine (jobs : list JobStatus) (rawLine : gostring)
    : list JobStatus :=
  let line := TrimSpace rawLine in
  if eqs line [] then jobs
  else
    let fields := Split line comma in
    if 5 <=? length fields then
      let job :=
        mkJobStatus (Trim (nth 0 fields []) quote)
                    (Trim (nth 1 fields []) quote)
                    (Trim (nth 2 fields []) quote)
                    (Trim (nth 3 fields []) quote)
                    (Trim (nth 4 fields []) quote)
                    [] in
      let job :=
        if 6 <=? length fields
        then setDuration job (Trim (nth 5 fields []) quote)
        else job in
      jobs ++ [job]
    else jobs.

(** The second component is the [error] result, [None] for [nil]. *)
Definition parseJobStatusOutput (output : gostring) (status : gostring)
    : list JobStatus * option error :=
  let lines := Split output newline in
  if length lines <? 2 then ([], None)
  else
    let jobs := fold_left parseLine (skipn 1 lines) [] in
    (jobs, None).

(** *** The digest of sendEmailAlert *)

Definition subjectLine (problematicJobs : list JobStatus) : gostring :=
  "ALERT: " ++ itoa (Z.of_nat (length problematicJobs))
            ++ " Veeam Backup Jobs Need Attention".

(** The loop that groups the jobs by status: the three slices after the
    iteration on [job]. *)
Definition groupStep
    (groups : list JobStatus * list JobStatus * list JobStatus)
    (job : JobStatus) : list JobStatus * list JobStatus * list JobStatus :=
  let '(failedJobs, warningJobs, runningJobs) := groups in
  if eqs (Status job) "Failed" then
    (failedJobs ++ [job], warningJobs, runningJobs)
  else if eqs (Status job) "Warning" then
    (failedJobs, warningJobs ++ [job], runningJobs)
  else if eqs (Status job) "Running" then
    (failedJobs, warningJobs, runningJobs ++ [job])
  else groups.

Definition groupJobs (problematicJobs : list JobStatus)
    : list JobStatus * list JobStatus * list JobStatus :=
  fold_left groupStep problematicJobs ([], [], []).

(** The block of a job of the Failed and Warning groups. *)
Definition jobBlock (job : JobStatus) : gostring :=
  "Job: " ++ Name job ++ nl ++
  "Status: " ++ Status job ++ nl ++
  "Start Time: " ++ StartTime job ++ nl ++
  "End Time: " ++ EndTime job ++ nl ++
  "Description: " ++ Description job ++ nl ++ nl.

(** [durationText] of a job of the Running group; [None] when an index
    expression is out of range, which panics. *)
Definition durationText (job : JobStatus) : option gostring :=
  if negb (eqs (Duration job) []) then
    match nth_error (Split (Duration job) period) 0,
          nth_error (Split (Duration job) period) 1 with
    | Some durationMin, Some _ =>
        Some (" (Running for " ++ durationMin ++ " minutes)")
    | _, _ => None
    end
  else Some [].

(** The block of a job of the Running group. *)
Definition runningBlock (job : JobStatus) : option gostring :=
  match durationText job with
  | Some text =>
      Some ("Job: " ++ Name job ++ nl ++
            "Status: " ++ Status job ++ text ++ nl ++
            "Start Time: " ++ StartTime job ++ nl ++
            "Description: " ++ Description job ++ nl ++ nl)
  | None => None
  end.

Definition appendRunning (body : option gostring) (job : JobStatus)
    : option gostring :=
  match body with
  | Some body =>
      match runningBlock job with
      | Some block => Some (body ++ block)
      | None => None
      end
  | None => None
  end.

(** The text of [body] when the message is prepared; [None] when building
    it panics. *)
Definition digestBody (problematicJobs : list JobStatus) : option gostring :=
  let '(failedJobs, warningJobs, runningJobs) := groupJobs problematicJobs in
  let body : gostring := "Veeam Backup & Replication Job Status Report" ++ nl in
  let body := body ++ "===========================================" ++ nl ++ nl in
  let body :=
    if 0 <? length failedJobs then
      let body := body ++ "FAILED JOBS ("
                    ++ itoa (Z.of_nat (length failedJobs)) ++ "):" ++ nl in
      let body := body ++ "--------------" ++ nl in
      let body := fold_left (fun body job => body ++ jobBlock job)
                            failedJobs body in
      body ++ nl
    else body in
  let body :=
    if 0 <? length warningJobs then
      let body := body ++ "WARNING JOBS ("
                    ++ itoa (Z.of_nat (length warningJobs)) ++ "):" ++ nl in
      let body := body ++ "----------------" ++ nl in
      let body := fold_left (fun body job => body ++ jobBlock job)
                            warningJobs body in
      body ++ nl
    else body in
  let body :=
    if 0 <? length runningJobs then
      let body := body ++ "LONG-RUNNING JOBS ("
                    ++ itoa (Z.of_nat (length runningJobs)) ++ "):" ++ nl in
      let body := body ++ "---------------------" ++ nl in
      fold_left appendRunning runningJobs (Some body)
    else Some body in
  match body with
  | Some body =>
      Some (body ++ nl
              ++ "This is an automated message from the Veeam Backup Monitor."
              ++ nl)
  | None => None
  end.

(** *** Effects

    The program talks to PowerShell, to the mail server, to the file
    system and to the log.  A computation yields the trace of its events
    and its result, [None] when it panicked. *)

(** The script that [getJobsByStatus] or [getLongRunningJobs] hands to
    [exec.Command("powershell", "-Command", ...)], by its template and the
    values formatted into it. *)
Inductive PSCommand : Type :=
| JobsByStatusScript (module server status : gostring)
| LongRunningJobsScript (module server : gostring) (threshold : Z).

(** [smtp.Auth]; [nil] is [None]. *)
Inductive Auth : Type :=
| PlainAuth (identity username password host : gostring).

Inductive Event : Type :=
| EvLog (msg : gostring)
| EvExec (cmd : PSCommand)
| EvSendMail (addr : gostring) (a : option Auth) (from : gostring)
             (to : list gostring) (msg : gostring)
| EvSleep (nanoseconds : Z).

Definition M (A : Type) : Type := (list Event * option A)%type.

Definition ret {A : Type} (a : A) : M A := ([], Some a).

Definition bind {A B : Type} (m : M A) (k : A -> M B) : M B :=
  match m with
  | (t, Some a) => let '(t', r) := k a in (t ++ t', r)
  | (t, None) => (t, None)
  end.

Definition emit (e : Event) : M unit := ([e], Some tt).

(** A value whose computation may panic. *)
Definition orPanic {A : Type} (o : option A) : M A := ([], o).

Notation "x <- m ;; k" := (bind m (fun x => k))
  (at level 61, m at next level, right associativity).
Notation "m ;;; k" := (bind m (fun _ => k))
  (at level 61, right associativity).

Definition trace {A : Type} (m : M A) : list Event := fst m.
Definition result {A : Type} (m : M A) : option A := snd m.

(** [log.Printf] and [log.Println], by the text they are given. *)
Definition logPrint (msg : gostring) : M unit := emit (EvLog msg).

(** An [int64] product wraps around. *)
Definition wrap64 (z : Z) : Z :=
  ((z + 2 ^ 63) mod 2 ^ 64 - 2 ^ 63)%Z.

Definition Minute : Z := 60000000000.

Section World.

(** [cmd.CombinedOutput()] of the PowerShell process. *)
Variable CombinedOutput : PSCommand -> gostring * option error.

(** [smtp.SendMail]. *)
Variable SendMail :
  gostring -> option Auth -> gostring -> list gostring -> gostring
  -> option error.

(** [ioutil.ReadFile]. *)
Variable ReadFile : gostring -> gostring * option error.

(** [json.Unmarshal(data, &config)]: the configuration it leaves in
    [config], and its error. *)
Variable Unmarshal : gostring -> Config -> Config * option error.

Definition runPowerShell (cmd : PSCommand) : M (gostring * option error) :=
  emit (EvExec cmd) ;;; ret (CombinedOutput cmd).

Definition smtpSendMail (addr : gostring) (a : option Auth)
    (from : gostring) (to : list gostring) (msg : gostring)
    : M (option error) :=
  emit (EvSendMail addr a from to msg) ;;; ret (SendMail addr a from to msg).

(** *** loadConfig *)

Definition loadConfig (filePath : gostring) : M (Config + error) :=
  let '(data, err) := ReadFile filePath in
  match err with
  | Some err => ret (inr ("error reading config file: " ++ err))
  | None =>
      let '(config, err) := Unmarshal data zeroConfig in
      match err with
      | Some err => ret (inr ("error parsing config file: " ++ err))
      | None =>
          config <-
            (if (CheckIntervalMinutes config <? 1)%Z then
               logPrint ("Warning: Check interval is less than 1 minute, setting to default of 15 minutes" ++ nl) ;;;
               ret (setCheckIntervalMinutes config 15)
             else ret config) ;;
          config <-
            (if negb (MonitorFailedJobs config)
                && negb (MonitorWarningJobs config)
                && negb (MonitorRunningJobs config) then
               logPrint ("Warning: No monitoring options enabled, enabling failed job monitoring by default" ++ nl) ;;;
               ret (setMonitorFailedJobs config true)
             else ret config) ;;
          config <-
            (if (LongRunningThreshold config <? 1)%Z then
               let config := setLongRunningThreshold config 120 in
               logPrint ("Warning: Long running threshold not set, defaulting to 120 minutes" ++ nl) ;;;
               ret config
             else ret config) ;;
          ret (inl config)
      end
  end.

(** *** getJobsByStatus and getLongRunningJobs *)

Definition getJobsByStatus (config : Config) (status : gostring)
    : M (list JobStatus * option error) :=
  let psCommand :=
    JobsByStatusScript (VeeamPowerShellModule config)
                       (VeeamServerAddress config) status in
  r <- runPowerShell psCommand ;;
  let '(output, err) := r in
  match err with
  | Some err =>
      ret ([], Some ("failed to execute PowerShell command for "
                       ++ status ++ " jobs: " ++ err))
  | None => ret (parseJobStatusOutput output status)
  end.

Definition getLongRunningJobs (config : Config)
    : M (list JobStatus * option error) :=
  let psCommand :=
    LongRunningJobsScript (VeeamPowerShellModule config)
                          (VeeamServerAddress config)
                          (LongRunningThreshold config) in
  r <- runPowerShell psCommand ;;
  let '(output, err) := r in
  match err with
  | Some err =>
      ret ([], Some ("failed to execute PowerShell command for long-running jobs: "
                       ++ err))
  | None =>
      let '(jobs, err) := parseJobStatusOutput output "Running" in
      match err with
      | Some err => ret ([], Some err)
      | None =>
          let jobs :=
            map (fun job =>
                   setDescription job
                     ("Long-running job (over "
                        ++ itoa (LongRunningThreshold config)
                        ++ " minutes): " ++ Description job))
                jobs in
          ret (jobs, None)
      end
  end.

(** *** sendEmailAlert *)

Definition sendEmailAlert (problematicJobs : list JobStatus)
    (config : Config) : M (option error) :=
  let subject := subjectLine problematicJobs in
  body <- orPanic (digestBody problematicJobs) ;;
  let msg :=
    "From: " ++ EmailFrom config ++ crlf ++
    "To: " ++ Join (EmailTo config) ", " ++ crlf ++
    "Subject: " ++ subject ++ crlf ++
    crlf ++
    body in
  let auth :=
    if negb (eqs (EmailPassword config) []) then
      Some (PlainAuth [] (EmailFrom config) (EmailPassword config)
                      (SMTPServer config))
    else None in
  err <- smtpSendMail (SMTPServer config ++ ":" ++ itoa (SMTPPort config))
                      auth (EmailFrom config) (EmailTo config) msg ;;
  ret err.

(** *** One iteration of the monitoring loop of main *)

(** The value of [problematicJobs] when the three categories have been
    queried. *)
Definition collectProblematicJobs (config : Config) : M (list JobStatus) :=
  let problematicJobs : list JobStatus := [] in
  problematicJobs <-
    (if MonitorFailedJobs config then
       r <- getJobsByStatus config "Failed" ;;
       let '(failedJobs, err) := r in
       match err with
       | Some err =>
           logPrint ("Error checking failed jobs: " ++ err ++ nl) ;;;
           ret problematicJobs
       | None =>
           logPrint ("Found " ++ itoa (Z.of_nat (length failedJobs))
                       ++ " failed jobs" ++ nl) ;;;
           ret (problematicJobs ++ failedJobs)
       end
     else ret problematicJobs) ;;
  problematicJobs <-
    (if MonitorWarningJobs config then
       r <- getJobsByStatus config "Warning" ;;
       let '(warningJobs, err) := r in
       match err with
       | Some err =>
           logPrint ("Error checking warning jobs: " ++ err ++ nl) ;;;
           ret problematicJobs
       | None =>
           logPrint ("Found " ++ itoa (Z.of_nat (length warningJobs))
                       ++ " warning jobs" ++ nl) ;;;
           ret (problematicJobs ++ warningJobs)
       end
     else ret problematicJobs) ;;
  problematicJobs <-
    (if MonitorRunningJobs config then
       r <- getLongRunningJobs config ;;
       let '(longRunningJobs, err) := r in
       match err with
       | Some err =>
           logPrint ("Error checking long-running jobs: " ++ err ++ nl) ;;;
           ret problematicJobs
       | None =>
           logPrint ("Found " ++ itoa (Z.of_nat (length longRunningJobs))
                       ++ " long-running jobs" ++ nl) ;;;
           ret (problematicJobs ++ longRunningJobs)
       end
     else ret problematicJobs) ;;
  ret problematicJobs.

Definition pollCycle (config : Config) : M unit :=
  logPrint ("Checking Veeam backup job statuses..." ++ nl) ;;;
  problematicJobs <- collectProblematicJobs config ;;
  (if 0 <? length problematicJobs then
     err <- sendEmailAlert problematicJobs config ;;
     match err with
     | Some err => logPrint ("Error sending email alert: " ++ err ++ nl)
     | None => logPrint ("Email alert sent successfully" ++ nl)
     end
   else logPrint ("No problematic jobs found" ++ nl)) ;;;
  logPrint ("Sleeping for " ++ itoa (CheckIntervalMinutes config)
              ++ " minutes until next check" ++ nl) ;;;
  emit (EvSleep (wrap64 (CheckIntervalMinutes config * Minute))).

End World.

(** *** Vocabulary of the properties *)

(** The rows after the header row. *)
Definition dataRows (output : gostring) : list gostring :=
  skipn 1 (Split output newline).

(** The number of comma-separated fields of a row, as it stands in the
    input. *)
Definition fieldCount (row : gostring) : nat :=
  length (Split row comma).

(** The [i]-th field of a row, without the space around the row and the
    quotes around the field. *)
Definition field (row : gostring) (i : nat) : gostring :=
  Trim (nth i (Split (TrimSpace row) comma) []) quote.

Definition jobOfRow (row : gostring) : JobStatus :=
  mkJobStatus (field row 0) (field row 1) (field row 2) (field row 3)
              (field row 4)
              (if 6 <=? fieldCount row then field row 5 else []).

Definition hasStatus (status : gostring) (job : JobStatus) : bool :=
  eqs (Status job) status.

Definition knownStatus (job : JobStatus) : bool :=
  hasStatus "Failed" job || hasStatus "Warning" job
  || hasStatus "Running" job.

(** The part of [s] before its first [sep]; all of [s] when it has none. *)
Fixpoint beforeFirst (sep : ascii) (s : gostring) : gostring :=
  match s with
  | [] => []
  | c :: s' => if Ascii.eqb c sep then [] else c :: beforeFirst sep s'
  end.

Definition reportHeader : gostring :=
  "Veeam Backup & Replication Job Status Report" ++ nl ++
  "===========================================" ++ nl ++ nl.

Definition reportFooter : gostring :=
  nl ++ "This is an automated message from the Veeam Backup Monitor." ++ nl.

(** The section of the Failed or of the Warning group. *)
Definition plainSection (title underline : gostring)
    (group : list JobStatus) : gostring :=
  match group with
  | [] => []
  | _ :: _ =>
      title ++ " (" ++ itoa (Z.of_nat (length group)) ++ "):" ++ nl ++
      underline ++ nl ++
      concat (map jobBlock group) ++ nl
  end.

Fixpoint runningBlocks (group : list JobStatus) : option gostring :=
  match group with
  | [] => Some []
  | job :: rest =>
      match runningBlock job, runningBlocks rest with
      | Some block, Some blocks => Some (block ++ blocks)
      | _, _ => None
      end
  end.

(** The section of the Running group; [None] when a block panics. *)
Definition runningSection (group : list JobStatus) : option gostring :=
  match group with
  | [] => Some []
  | _ :: _ =>
      match runningBlocks group with
      | Some blocks =>
          Some ("LONG-RUNNING JOBS (" ++ itoa (Z.of_nat (length group))
                  ++ "):" ++ nl ++ "---------------------" ++ nl ++ blocks)
      | None => None
      end
  end.

(** What a category adds to [problematicJobs]: the jobs of its query when
    the category is enabled and the query succeeded. *)
Definition contribution (enabled : bool)
    (query : M (list JobStatus * option error)) : list JobStatus :=
  if enabled then
    match result query with
    | Some (jobs, None) => jobs
    | _ => []
    end
  else [].

Definition isSendMail (e : Event) : bool :=
  match e with
  | EvSendMail _ _ _ _ _ => true
  | _ => false
  end.

(** The number of calls of [smtp.SendMail] in a trace. *)
Definition countSendMail (t : list Event) : nat :=
  length (filter isSendMail t).

(** A field wrapped in double quotes, as ConvertTo-Csv writes it. *)
Definition quoted (s : gostring) : gostring := quote :: s ++ [quote].

(** The property of the duration field that holds of no more than some
    parser outputs: it is empty unless the status is Running. *)
Definition durationOnlyForRunning (jobs : list JobStatus) : Prop :=
  Forall (fun job => Duration job <> [] -> Status job = "Running") jobs.

(** The three section counts add up to the count of the subject line. *)
Definition sectionCountsMatchSubject (jobs : list JobStatus) : Prop :=
  let '(failedJobs, warningJobs, runningJobs) := groupJobs jobs in
  length failedJobs + length warningJobs + length runningJobs = length jobs.

(** *** The start of main and the monitoring loop *)

(** The values of the command-line flags after [flag.Parse()]. *)
Record Flags : Type := mkFlags {
  veeamServer : gostring;
  emailFrom : gostring;
  emailPassword : gostring;
  emailTo : gostring;
  smtpServer : gostring;
  configFile : gostring
}.

Definition setVeeamServerAddress (config : Config) (v : gostring) : Config :=
  mkConfig (VeeamPowerShellModule config) v (CheckIntervalMinutes config)
           (SMTPServer config) (SMTPPort config) (EmailFrom config)
           (EmailTo config) (EmailPassword config)
           (MonitorFailedJobs config) (MonitorWarningJobs config)
           (MonitorRunningJobs config) (LongRunningThreshold config).

Definition setSMTPServer (config : Config) (v : gostring) : Config :=
  mkConfig (VeeamPowerShellModule config) (VeeamServerAddress config)
           (CheckIntervalMinutes config) v (SMTPPort config)
           (EmailFrom config) (EmailTo config) (EmailPassword config)
           (MonitorFailedJobs config) (MonitorWarningJobs config)
           (MonitorRunningJobs config) (LongRunningThreshold config).

Definition setEmailFrom (config : Config) (v : gostring) : Config :=
  mkConfig (VeeamPowerShellModule config) (VeeamServerAddress config)
           (CheckIntervalMinutes config) (SMTPServer config)
           (SMTPPort config) v (EmailTo config) (EmailPassword config)
           (MonitorFailedJobs config) (MonitorWarningJobs config)
           (MonitorRunningJobs config) (LongRunningThreshold config).

Definition setEmailTo (config : Config) (v : list gostring) : Config :=
  mkConfig (VeeamPowerShellModule config) (VeeamServerAddress config)
           (CheckIntervalMinutes config) (SMTPServer config)
           (SMTPPort config) (EmailFrom config) v (EmailPassword config)
           (MonitorFailedJobs config) (MonitorWarningJobs config)
           (MonitorRunningJobs config) (LongRunningThreshold config).

Definition setEmailPassword (config : Config) (v : gostring) : Config :=
  mkConfig (VeeamPowerShellModule config) (VeeamServerAddress config)
           (CheckIntervalMinutes config) (SMTPServer config)
           (SMTPPort config) (EmailFrom config) (EmailTo config) v
           (MonitorFailedJobs config) (MonitorWarningJobs config)
           (MonitorRunningJobs config) (LongRunningThreshold config).

(** The configuration that main builds when the file could not be
    loaded; the fields it does not name have their zero value. *)
Definition defaultConfig : Config :=
  mkConfig "Veeam.Backup.PowerShell" [] 15 [] 25 [] [] [] true false false
           120.

Section Startup.

(** [os.MkdirAll(path, 0755)]. *)
Variable MkdirAll : gostring -> option error.

(** [time.Now().Format("2006-01-02")]. *)
Variable Today : gostring.

(** [os.PathSeparator], which [filepath.Join] puts between its elements. *)
Variable PathSeparator : ascii.

(** [os.OpenFile(path, os.O_CREATE|os.O_APPEND|os.O_WRONLY, 0644)]; the
    file it opens is known by its path. *)
Variable OpenFile : gostring -> option error.

Variable ReadFile : gostring -> gostring * option error.
Variable Unmarshal : gostring -> Config -> Config * option error.

(** setupLogging returns the log file and the error.  The output of the
    logger, which it sets to [os.Stdout], is not part of the model: a log
    event holds the text and not its destination. *)
Definition setupLogging : option gostring * option error :=
  match MkdirAll "logs" with
  | Some err => (None, Some err)
  | None =>
      let timestamp := Today in
      let logPath :=
        "logs" ++ [PathSeparator]
               ++ ("veeam-monitor-" ++ timestamp ++ ".log") in
      match OpenFile logPath with
      | Some err => (None, Some err)
      | None => (Some logPath, None)
      end
  end.

(** main up to the monitoring loop: the configuration that the loop runs
    with.  [defer logFile.Close()] leaves no event: the loop does not
    return. *)
Definition startup (flags : Flags) : M Config :=
  let '(logFile, err) := setupLogging in
  match err with
  | Some err =>
      logPrint ("Error setting up logging: " ++ err
                  ++ ". Will log to console only." ++ nl)
  | None => ret tt
  end ;;;
  r <- loadConfig ReadFile Unmarshal (configFile flags) ;;
  config <-
    match r with
    | inr err =>
        logPrint ("Error loading configuration: " ++ err ++ nl) ;;;
        logPrint ("Will use default values and command-line parameters"
                    ++ nl) ;;;
        ret defaultConfig
    | inl config => ret config
    end ;;
  config <-
    (if negb (eqs (veeamServer flags) []) then
       let config := setVeeamServerAddress config (veeamServer flags) in
       logPrint ("Using Veeam server from command line: "
                   ++ VeeamServerAddress config ++ nl) ;;;
       ret config
     else ret config) ;;
  config <-
    (if negb (eqs (emailFrom flags) []) then
       let config := setEmailFrom config (emailFrom flags) in
       logPrint ("Using sender email from command line: "
                   ++ EmailFrom config ++ nl) ;;;
       ret config
     else ret config) ;;
  config <-
    (if negb (eqs (emailPassword flags) []) then
       let config := setEmailPassword config (emailPassword flags) in
       logPrint ("Using email password from command line" ++ nl) ;;;
       ret config
     else ret config) ;;
  config <-
    (if negb (eqs (emailTo flags) []) then
       let config := setEmailTo config [emailTo flags] in
       logPrint ("Using recipient email from command line: "
                   ++ nth 0 (EmailTo config) [] ++ nl) ;;;
       ret config
     else ret config) ;;
  config <-
    (if negb (eqs (smtpServer flags) []) then
       let config := setSMTPServer config (smtpServer flags) in
       logPrint ("Using SMTP server from command line: "
                   ++ SMTPServer config ++ nl) ;;;
       ret config
     else ret config) ;;
  (if eqs (VeeamServerAddress config) [] then
     logPrint ("Warning: No Veeam server address specified" ++ nl)
   else ret tt) ;;;
  (if eqs (EmailFrom config) [] || (length (EmailTo config) =? 0)
      || eqs (SMTPServer config) [] then
     logPrint ("Warning: Email configuration incomplete. Notifications will not be sent." ++ nl)
   else ret tt) ;;;
  logPrint ("Starting Veeam backup monitoring service" ++ nl) ;;;
  ret config.

End Startup.

(** The iterations [i], [i+1], ..., [i+n-1] of the loop [for { ... }] of
    main, a finite part of a loop that never ends by itself; the answers
    of PowerShell and of the mail server may change from one iteration to
    the next. *)
Fixpoint monitorLoop
    (CombinedOutputAt : nat -> PSCommand -> gostring * option error)
    (SendMailAt : nat -> gostring -> option Auth -> gostring
                  -> list gostring -> gostring -> option error)
    (config : Config) (i n : nat) : M unit :=
  match n with
  | 0 => ret tt
  | S k =>
      pollCycle (CombinedOutputAt i) (SendMailAt i) config ;;;
      monitorLoop CombinedOutputAt SendMailAt config (S i) k
  end.

(** *** More vocabulary *)

(** ASCII white space and ASCII bytes that are not white space. *)
Definition spaceAscii (c : ascii) : Prop :=
  (byteN c < 0x80)%N /\ IsSpace (byteN c) = true.

Definition nonSpaceAscii (c : ascii) : Prop :=
  (byteN c < 0x80)%N /\ IsSpace (byteN c) = false.

(** A field that the comma split and the quote trimming give back as it
    is: no comma, no line feed, no double quote. *)
Definition plainField (f : gostring) : Prop :=
  ~ In comma f /\ ~ In newline f /\ ~ In quote f.

(** The row that ConvertTo-Csv writes for a job of a status query (five
    columns) and of the long-running query (six columns). *)
Definition csvRow5 (job : JobStatus) : gostring :=
  quoted (Name job) ++ "," ++ quoted (Status job) ++ "," ++
  quoted (StartTime job) ++ "," ++ quoted (EndTime job) ++ "," ++
  quoted (Description job).

Definition csvRow6 (job : JobStatus) : gostring :=
  csvRow5 job ++ "," ++ quoted (Duration job).

(** A header row and data rows, each ended by CR LF. *)
Definition csvOutput (header : gostring) (rows : list gostring) : gostring :=
  header ++ crlf ++ concat (map (fun row => row ++ crlf) rows).

Definition plainJob (job : JobStatus) : Prop :=
  plainField (Name job) /\ plainField (Status job) /\
  plainField (StartTime job) /\ plainField (EndTime job) /\
  plainField (Description job) /\ plainField (Duration job).

(** The prefix that getLongRunningJobs puts before a description. *)
Definition longRunningPrefix (config : Config) : gostring :=
  "Long-running job (over " ++ itoa (LongRunningThreshold config)
                            ++ " minutes): ".

(** A Running block of the record can be rendered. *)
Definition renderable (job : JobStatus) : Prop :=
  hasStatus "Running" job = true ->
  Duration job = [] \/ In period (Duration job).

(** The configuration with the three corrections of loadConfig. *)
Definition repairedConfig (parsed : Config) : Config :=
  let config :=
    if (CheckIntervalMinutes parsed <? 1)%Z
    then setCheckIntervalMinutes parsed 15 else parsed in
  let config :=
    if negb (MonitorFailedJobs config) && negb (MonitorWarningJobs config)
       && negb (MonitorRunningJobs config)
    then setMonitorFailedJobs config true else config in
  if (LongRunningThreshold config <? 1)%Z
  then setLongRunningThreshold config 120 else config.

(** The interval and the threshold are at least 1 and a category is
    monitored. *)
Definition validConfig (config : Config) : Prop :=
  (1 <= CheckIntervalMinutes config)%Z /\
  (1 <= LongRunningThreshold config)%Z /\
  MonitorFailedJobs config || MonitorWarningJobs config
  || MonitorRunningJobs config = true.

(** A flag wins over the current value when it is not empty. *)
Definition orFlag (flag current : gostring) : gostring :=
  if eqs flag [] then current else flag.

(** The configuration with the command-line values put over it. *)
Definition applyFlags (flags : Flags) (config : Config) : Config :=
  mkConfig (VeeamPowerShellModule config)
           (orFlag (veeamServer flags) (VeeamServerAddress config))
           (CheckIntervalMinutes config)
           (orFlag (smtpServer flags) (SMTPServer config))
           (SMTPPort config)
           (orFlag (emailFrom flags) (EmailFrom config))
           (if eqs (emailTo flags) [] then EmailTo config
            else [emailTo flags])
           (orFlag (emailPassword flags) (EmailPassword config))
           (MonitorFailedJobs config) (MonitorWarningJobs config)
           (MonitorRunningJobs config) (LongRunningThreshold config).

Definition isSleep (e : Event) : bool :=
  match e with
  | EvSleep _ => true
  | _ => false
  end.

(** The six fields of a record. *)
Definition fieldsOf (job : JobStatus) : list gostring :=
  [Name job; Status job; StartTime job; EndTime job; Description job;
   Duration job].

Definition isExec (e : Event) : bool :=
  match e with
  | EvExec _ => true
  | _ => false
  end.

Definition execCommands (t : list Event) : list PSCommand :=
  flat_map (fun e => match e with EvExec cmd => [cmd] | _ => [] end) t.

Definition isLog (e : Event) : bool :=
  match e with
  | EvLog _ => true
  | _ => false
  end.

(** *** A configuration and a world to evaluate the code on *)

Definition demoConfig : Config :=
  mkConfig "Veeam.Backup.PowerShell" "veeam01" 15 "smtp.example.com" 25
           "alerts@example.com" [("admin@example.com" : gostring); ("ops@example.com" : gostring)]
           "secret" true true true 120.

(** The Failed query and the long-running query fail; the Warning query
    returns one row. *)
Definition demoOutput (cmd : PSCommand) : gostring * option error :=
  match cmd with
  | JobsByStatusScript _ _ status =>
      if eqs status "Warning" then
        (quoted "Name" ++ "," ++ quoted "LastResult" ++ "," ++
         quoted "LastStart" ++ "," ++ quoted "LastEnd" ++ "," ++
         quoted "Description" ++ crlf ++
         quoted "JobC" ++ "," ++ quoted "Warning" ++ "," ++
         quoted "2024-01-01" ++ "," ++ quoted "2024-01-02" ++ "," ++
         quoted "Retried" ++ crlf, None)
      else ([], Some (list_ascii_of_string "exit status 1"))
  | LongRunningJobsScript _ _ _ =>
      ([], Some (list_ascii_of_string "exit status 1"))
  end.

(** The long-running query returns a job that has run for a whole number
    of minutes; the other queries return the header row only. *)
Definition wholeMinutesOutput (cmd : PSCommand) : gostring * option error :=
  match cmd with
  | JobsByStatusScript _ _ _ =>
      (quoted "Name" ++ "," ++ quoted "LastResult" ++ "," ++
       quoted "LastStart" ++ "," ++ quoted "LastEnd" ++ "," ++
       quoted "Description" ++ crlf, None)
  | LongRunningJobsScript _ _ _ =>
      (quoted "Name" ++ "," ++ quoted "Status" ++ "," ++
       quoted "StartTime" ++ "," ++ quoted "EndTime" ++ "," ++
       quoted "Description" ++ "," ++ quoted "Duration" ++ crlf ++
       quoted "JobB" ++ "," ++ quoted "Running" ++ "," ++
       quoted "2024-01-01 08:00" ++ "," ++ quoted "N/A" ++ "," ++
       quoted "Currently running" ++ "," ++ quoted "130" ++ crlf, None)
  end.

(** The configuration file does not exist. *)
Definition missingFile (filePath : gostring) : gostring * option error :=
  ([], Some (list_ascii_of_string "no such file")).

(** The file holds a complete configuration. *)
Definition fullUnmarshal (data : gostring) (config : Config)
    : Config * option error :=
  (mkConfig "Veeam.Backup.PowerShell" "veeam01" 30 "smtp.example.com" 0
            "alerts@example.com" [("admin@example.com" : gostring)]
            "filesecret" false true false 240, None).

(** The directory of the log files can be made and the log file opened. *)
Definition demoMkdirAll (path : gostring) : option error := None.

Definition demoOpenFile (path : gostring) : option error := None.

(** The command line of the runner script: server, sender, password,
    recipient and SMTP server are given, the configuration file is the
    default one. *)
Definition demoFlags : Flags :=
  mkFlags "veeam-server.example.com" "alerts@example.com" "yourpassword"
          "admin@example.com" "smtp.example.com" "config.json".

(** The long-running query returns a job with a whole number of minutes
    in the second iteration of the loop, and the answers of [demoOutput]
    in the others. *)
Definition panicAtSecond (i : nat) : PSCommand -> gostring * option error :=
  if i =? 1 then wholeMinutesOutput else demoOutput.

(** Every query fails. *)
Definition deadOutput (cmd : PSCommand) : gostring * option error :=
  ([], Some (list_ascii_of_string "exit status 1")).

Definition demoSendMail (addr : gostring) (a : option Auth)
    (from : gostring) (to : list gostring) (msg : gostring)
    : option error := None.

Definition demoReadFile (filePath : gostring) : gostring * option error :=
  (list_ascii_of_string "{}", None).

(** The file sets an interval of 0 and a threshold of -5 and no toggle. *)
Definition demoUnmarshal (data : gostring) (config : Config)
    : Config * option error :=
  (mkConfig (VeeamPowerShellModule config) "veeam01" 0 "smtp.example.com"
            25 "alerts@example.com" [("admin@example.com" : gostring)] []
            false false false (-5), None).

End VeeamMonitor.
Import VeeamMonitor.

(** ** Properties of the library functions *)

Section GoLibFacts.

Lemma eqs_true_iff (a b : gostring) : eqs a b = true <-> a = b.
Proof.
  revert b; induction a as [|x a IH]; intros [|y b]; simpl;
    try (split; [discriminate|discriminate]); try tauto.
  rewrite andb_true_iff, Ascii.eqb_eq, IH.
  split; [intros [-> ->]; reflexivity | intros H; inversion H; auto].
Qed.

Lemma eqs_refl (a : gostring) : eqs a a = true.
Proof. apply eqs_true_iff; reflexivity. Qed.

Lemma eqs_false_iff (a b : gostring) : eqs a b = false <-> a <> b.
Proof.
  rewrite <- eqs_true_iff. destruct (eqs a b); split; congruence.
Qed.

(** *** Split *)

Lemma Split_not_nil (s : gostring) (sep : ascii) : Split s sep <> [].
Proof.
  destruct s as [|c s]; simpl; [discriminate|].
  destruct (Ascii.eqb c sep); [discriminate|].
  destruct (Split s sep); discriminate.
Qed.

Lemma Split_length (s : gostring) (sep : ascii) :
  length (Split s sep) = S (count_occ ascii_dec s sep).
Proof.
  induction s as [|c s IH]; simpl; [reflexivity|].
  destruct (Ascii.eqb_spec c sep) as [->|Hne].
  - destruct (ascii_dec sep sep); [|congruence]. simpl; congruence.
  - destruct (ascii_dec c sep); [congruence|].
    destruct (Split s sep) eqn:E; [exfalso; eapply Split_not_nil; eauto|].
    simpl in *. exact IH.
Qed.

Lemma Split_app_nosep (p t : gostring) (sep : ascii) :
  ~ In sep p ->
  Split (p ++ t) sep =
  (p ++ hd [] (Split t sep)) :: tl (Split t sep).
Proof.
  induction p as [|c p IH]; intros Hp; simpl.
  - destruct (Split t sep) eqn:E; [exfalso; eapply Split_not_nil; eauto|].
    reflexivity.
  - destruct (Ascii.eqb_spec c sep) as [->|Hne].
    + exfalso; apply Hp; left; reflexivity.
    + rewrite IH by (intros H; apply Hp; right; exact H). reflexivity.
Qed.

(** *** DecodeRuneInString *)

Lemma first_cases (b : N) :
  (first b = as_ /\ (b < 0x80)%N) \/
  first b = xx \/
  ((first b < as_)%N /\ (0x80 <= b)%N /\
   2 <= N.to_nat (N.land (first b) 7) <= 4 /\
   (0x80 <= fst (acceptRanges (N.shiftr (first b) 4)))%N).
Proof.
  unfold first.
  repeat match goal with
         | |- context [(?x <? ?y)%N] => destruct (N.ltb_spec x y)
         | |- context [(?x =? ?y)%N] => destruct (N.eqb_spec x y)
         end;
    try (left; split; [reflexivity | assumption]);
    try (right; left; reflexivity);
    right; right;
    (split; [reflexivity |
     split; [lia |
     split; [vm_compute; lia | vm_compute; discriminate]]]).
Qed.

(** The multi-byte branch of [DecodeRuneInString], entered when the first
    byte [b0] announces [sz >= 2] bytes. *)
Lemma DecodeRuneInString_multi (c0 : ascii) (t : gostring) :
  (first (byteN c0) < as_)%N ->
  DecodeRuneInString (c0 :: t) =
  let s := c0 :: t in
  let b0 := byteN c0 in
  let sz := N.to_nat (N.land (first b0) 7) in
  let accept := acceptRanges (N.shiftr (first b0) 4) in
  if length s <? sz then (RuneError, 1)
  else
    let b1 := byteAt s 1 in
    if ((b1 <? fst accept) || (snd accept <? b1))%N then (RuneError, 1)
    else if sz <=? 2 then
      (N.lor (N.shiftl (N.land b0 mask2) 6) (N.land b1 maskx), 2)
    else
      let b2 := byteAt s 2 in
      if ((b2 <? locb) || (hicb <? b2))%N then (RuneError, 1)
      else if sz <=? 3 then
        (N.lor (N.lor (N.shiftl (N.land b0 mask3) 12)
                      (N.shiftl (N.land b1 maskx) 6))
               (N.land b2 maskx), 3)
      else
        let b3 := byteAt s 3 in
        if ((b3 <? locb) || (hicb <? b3))%N then (RuneError, 1)
        else
          (N.lor (N.lor (N.lor (N.shiftl (N.land b0 mask4) 18)
                               (N.shiftl (N.land b1 maskx) 12))
                        (N.shiftl (N.land b2 maskx) 6))
                 (N.land b3 maskx), 4).
Proof.
  intros Hx. unfold DecodeRuneInString.
  change (length (c0 :: t) <? 1) with false.
  change (byteAt (c0 :: t) 0) with (byteN c0).
  cbv beta iota zeta.
  destruct (N.leb_spec as_ (first (byteN c0))) as [Hc|_]; [lia|].
  reflexivity.
Qed.

Lemma DecodeRuneInString_spec (s : gostring) :
  s <> [] -> DecodeSpec s (DecodeRuneInString s).
Proof.
  destruct s as [|c0 t]; [congruence|intros _].
  destruct (first_cases (byteN c0)) as [[Hx Hb]|[Hx|(Hx & Hb & Hsz & Hlo)]].
  - unfold DecodeRuneInString.
    change (length (c0 :: t) <? 1) with false.
    change (byteAt (c0 :: t) 0) with (byteN c0).
    rewrite Hx. cbn. left. split; [reflexivity|]. left.
    change (byteAt (c0 :: t) 0) with (byteN c0). auto.
  - unfold DecodeRuneInString.
    change (length (c0 :: t) <? 1) with false.
    change (byteAt (c0 :: t) 0) with (byteN c0).
    rewrite Hx. cbn. left. split; [reflexivity|]. right; reflexivity.
  - rewrite (DecodeRuneInString_multi c0 t Hx).
    cbv zeta.
    remember (N.to_nat (N.land (first (byteN c0)) 7)) as sz eqn:Esz.
    remember (acceptRanges (N.shiftr (first (byteN c0)) 4)) as acc eqn:Eacc.
    destruct (Nat.ltb_spec (length (c0 :: t)) sz) as [Hn|Hn];
      [left; split; [reflexivity|right; reflexivity]|].
    destruct t as [|c1 t1]; [simpl in Hn; lia|].
    change (byteAt (c0 :: c1 :: t1) 1) with (byteN c1).
    destruct ((byteN c1 <? fst acc) || (snd acc <? byteN c1))%N eqn:E1;
      [left; split; [reflexivity|right; reflexivity]|].
    pose proof E1 as E1'.
    apply orb_false_iff in E1'. destruct E1' as [E1a _].
    apply N.ltb_ge in E1a.
    destruct (Nat.leb_spec sz 2) as [H2|H2].
    { right. split; [simpl; lia|]. split.
      - cbn [firstn]. repeat constructor; lia.
      - intros u. cbn [firstn app].
        rewrite (DecodeRuneInString_multi c0 (c1 :: u) Hx). cbv zeta.
        rewrite <- Esz, <- Eacc.
        change (byteAt (c0 :: c1 :: u) 1) with (byteN c1).
        rewrite E1.
        destruct (Nat.ltb_spec (length (c0 :: c1 :: u)) sz) as [Hn'|_];
          [simpl in Hn'; lia|].
        destruct (Nat.leb_spec sz 2); [reflexivity|lia]. }
    destruct t1 as [|c2 t2]; [simpl in Hn; lia|].
    change (byteAt (c0 :: c1 :: c2 :: t2) 2) with (byteN c2).
    destruct ((byteN c2 <? locb) || (hicb <? byteN c2))%N eqn:E2;
      [left; split; [reflexivity|right; reflexivity]|].
    pose proof E2 as E2'.
    apply orb_false_iff in E2'. destruct E2' as [E2a _].
    apply N.ltb_ge in E2a. unfold locb in E2a.
    destruct (Nat.leb_spec sz 3) as [H3|H3].
    { right. split; [simpl; lia|]. split.
      - cbn [firstn]. repeat constructor; lia.
      - intros u. cbn [firstn app].
        rewrite (DecodeRuneInString_multi c0 (c1 :: c2 :: u) Hx). cbv zeta.
        rewrite <- Esz, <- Eacc.
        change (byteAt (c0 :: c1 :: c2 :: u) 1) with (byteN c1).
        change (byteAt (c0 :: c1 :: c2 :: u) 2) with (byteN c2).
        rewrite E1, E2.
        destruct (Nat.ltb_spec (length (c0 :: c1 :: c2 :: u)) sz) as [Hn'|_];
          [simpl in Hn'; lia|].
        destruct (Nat.leb_spec sz 2); [lia|].
        destruct (Nat.leb_spec sz 3); [reflexivity|lia]. }
    destruct t2 as [|c3 t3]; [simpl in Hn; lia|].
    change (byteAt (c0 :: c1 :: c2 :: c3 :: t3) 3) with (byteN c3).
    destruct ((byteN c3 <? locb) || (hicb <? byteN c3))%N eqn:E3;
      [left; split; [reflexivity|right; reflexivity]|].
    pose proof E3 as E3'.
    apply orb_false_iff in E3'. destruct E3' as [E3a _].
    apply N.ltb_ge in E3a. unfold locb in E3a.
    right. split; [simpl; lia|]. split.
    + cbn [firstn]. repeat constructor; lia.
    + intros u. cbn [firstn app].
      rewrite (DecodeRuneInString_multi c0 (c1 :: c2 :: c3 :: u) Hx). cbv zeta.
      rewrite <- Esz, <- Eacc.
      change (byteAt (c0 :: c1 :: c2 :: c3 :: u) 1) with (byteN c1).
      change (byteAt (c0 :: c1 :: c2 :: c3 :: u) 2) with (byteN c2).
      change (byteAt (c0 :: c1 :: c2 :: c3 :: u) 3) with (byteN c3).
      rewrite E1, E2, E3.
      destruct (Nat.ltb_spec (length (c0 :: c1 :: c2 :: c3 :: u)) sz) as [Hn'|_];
        [simpl in Hn'; lia|].
      destruct (Nat.leb_spec sz 2); [lia|].
      destruct (Nat.leb_spec sz 3); [lia|reflexivity].
Qed.

Example DecodeRuneInString_euro :
  DecodeRuneInString [ascii_of_nat 226; ascii_of_nat 130; ascii_of_nat 172;
                      "x"%char] = (0x20AC%N, 3).
Proof. reflexivity. Qed.

Example DecodeRuneInString_truncated :
  DecodeRuneInString [ascii_of_nat 226; ascii_of_nat 130] = (RuneError, 1).
Proof. reflexivity. Qed.

Example DecodeLastRuneInString_nbsp :
  DecodeLastRuneInString ["a"%char; ascii_of_nat 194; ascii_of_nat 160]
  = (0xA0%N, 2).
Proof. reflexivity. Qed.

Example TrimSpace_unicode :
  TrimSpace ([ascii_of_nat 226; ascii_of_nat 128; ascii_of_nat 168]
               ++ " a, b" ++ [ascii_of_nat 194; ascii_of_nat 160] ++ nl_tab)
  = list_ascii_of_string "a, b".
Proof. reflexivity. Qed.

Lemma DecodeRuneInString_size (s : gostring) (r : N) (sz : nat) :
  s <> [] -> DecodeRuneInString s = (r, sz) -> 1 <= sz <= length s.
Proof.
  intros Hs E. pose proof (DecodeRuneInString_spec s Hs) as H.
  rewrite E in H. destruct H as [[-> _]|[H _]]; [|lia].
  destruct s; [congruence|simpl; lia].
Qed.

Lemma IsSpace_RuneError : IsSpace RuneError = false.
Proof. reflexivity. Qed.

(** An ASCII byte that is not white space is no byte of the encoding of a
    white-space rune. *)
Lemma space_rune_bytes (s : gostring) (r : N) (sz : nat) (c : ascii) :
  s <> [] -> DecodeRuneInString s = (r, sz) -> IsSpace r = true ->
  (byteN c < 0x80)%N -> IsSpace (byteN c) = false ->
  ~ In c (firstn sz s).
Proof.
  intros Hs E Hr Hc Hcs Hin.
  pose proof (DecodeRuneInString_spec s Hs) as H. rewrite E in H.
  destruct H as [[-> H]|(_ & H & _)].
  - destruct s as [|c0 t]; [congruence|].
    cbn [firstn] in Hin. destruct Hin as [->|[]].
    change (byteAt (c :: t) 0) with (byteN c) in H.
    destruct H as [[_ ->]| ->]; [congruence|].
    rewrite IsSpace_RuneError in Hr; discriminate.
  - rewrite Forall_forall in H. specialize (H c Hin). lia.
Qed.

(** *** The list facts used below *)

Lemma skipn_nonempty {A : Type} (l : list A) (i : nat) :
  i < length l -> skipn i l <> [].
Proof.
  intros Hi H0. apply (f_equal (@length _)) in H0.
  rewrite length_skipn in H0. simpl in H0. lia.
Qed.

Lemma firstn_nonempty {A : Type} (l : list A) (i : nat) :
  0 < i -> 0 < length l -> firstn i l <> [].
Proof.
  intros Hi Hl H0. apply (f_equal (@length _)) in H0.
  rewrite length_firstn in H0. simpl in H0. lia.
Qed.

Lemma In_skipn_le {A : Type} (l : list A) (a b : nat) (x : A) :
  a <= b -> In x (skipn b l) -> In x (skipn a l).
Proof.
  intros Hab Hin.
  replace b with ((b - a) + a) in Hin by lia.
  rewrite <- skipn_skipn in Hin.
  rewrite <- (firstn_skipn (b - a) (skipn a l)).
  apply in_or_app; right; exact Hin.
Qed.

Lemma count_occ_skipn (l : gostring) (k : nat) (c : ascii) :
  ~ In c (firstn k l) ->
  count_occ ascii_dec (skipn k l) c = count_occ ascii_dec l c.
Proof.
  intros H. rewrite <- (firstn_skipn k l) at 2.
  rewrite count_occ_app.
  apply (count_occ_not_In ascii_dec) in H. lia.
Qed.

Lemma count_occ_firstn (l : gostring) (k : nat) (c : ascii) :
  ~ In c (skipn k l) ->
  count_occ ascii_dec (firstn k l) c = count_occ ascii_dec l c.
Proof.
  intros H. rewrite <- (firstn_skipn k l) at 2.
  rewrite count_occ_app.
  apply (count_occ_not_In ascii_dec) in H. lia.
Qed.

(** *** TrimLeftFunc *)

Lemma indexFunc_loop_keeps (c : ascii) (s : gostring) :
  (byteN c < 0x80)%N -> IsSpace (byteN c) = false ->
  forall (fuel i : nat),
    i <= length s -> length s - i < fuel -> ~ In c (firstn i s) ->
    match indexFunc_loop fuel s IsSpace false i with
    | Some j => j <= length s /\ ~ In c (firstn j s)
    | None => ~ In c s
    end.
Proof.
  intros Hc Hcs. induction fuel as [|fuel IH]; intros i Hi Hfuel Hpre;
    [lia|].
  cbn [indexFunc_loop].
  destruct (Nat.leb_spec (length s) i) as [Hle|Hlt].
  - rewrite firstn_all2 in Hpre by lia. exact Hpre.
  - destruct (DecodeRuneInString (skipn i s)) as [r size] eqn:E.
    assert (Hne : skipn i s <> [])
      by (apply skipn_nonempty; lia).
    pose proof (DecodeRuneInString_size _ _ _ Hne E) as Hsize.
    rewrite length_skipn in Hsize.
    destruct (IsSpace r) eqn:Hr; cbn [Bool.eqb].
    + apply IH; try lia.
      rewrite <- (firstn_skipn i (firstn (i + size) s)).
      rewrite firstn_firstn, Nat.min_l by lia.
      rewrite <- firstn_skipn_comm.
      intros Hin. apply in_app_or in Hin. destruct Hin as [Hin|Hin].
      * exact (Hpre Hin).
      * revert Hin. eapply space_rune_bytes; eauto.
    + split; [lia|exact Hpre].
Qed.

Lemma TrimLeftFunc_count (c : ascii) (s : gostring) :
  (byteN c < 0x80)%N -> IsSpace (byteN c) = false ->
  count_occ ascii_dec (TrimLeftFunc s IsSpace) c = count_occ ascii_dec s c.
Proof.
  intros Hc Hcs. unfold TrimLeftFunc, indexFunc.
  pose proof (indexFunc_loop_keeps c s Hc Hcs (S (length s)) 0) as H.
  cbn [firstn] in H. specialize (H ltac:(lia) ltac:(lia) ltac:(auto)).
  destruct (indexFunc_loop (S (length s)) s IsSpace false 0) as [j|].
  - apply count_occ_skipn; tauto.
  - symmetry. apply (count_occ_not_In ascii_dec) in H. exact H.
Qed.

(** *** DecodeLastRuneInString and TrimRightFunc *)

Lemma backUp_le (fuel : nat) (s : gostring) (start lim : Z) :
  (backUp fuel s start lim <= start)%Z.
Proof.
  revert start; induction fuel as [|fuel IH]; intros start; cbn [backUp];
    [lia|].
  destruct (start <? lim)%Z; [lia|].
  destruct (RuneStart _); [lia|].
  specialize (IH (start - 1)%Z). lia.
Qed.

Lemma skipn_last_byte (s : gostring) :
  s <> [] -> skipn (length s - 1) s = [nth (length s - 1) s zero].
Proof.
  intros Hs. destruct (exists_last Hs) as (l & a & ->).
  rewrite length_app. cbn [length].
  replace (length l + 1 - 1) with (length l) by lia.
  rewrite skipn_app, skipn_all, Nat.sub_diag. cbn [skipn app].
  rewrite app_nth2, Nat.sub_diag by lia. reflexivity.
Qed.

Lemma DecodeLastRuneInString_spec (s : gostring) (r : N) (size : nat)
    (c : ascii) :
  s <> [] -> DecodeLastRuneInString s = (r, size) ->
  (byteN c < 0x80)%N -> IsSpace (byteN c) = false ->
  1 <= size <= length s /\
  (IsSpace r = true -> ~ In c (skipn (length s - size) s)) /\
  (2 <= size -> ~ In c (skipn (length s - size) s)).
Proof.
  intros Hs E Hc Hcs.
  assert (Hlen : 1 <= length s) by (destruct s; [congruence|simpl; lia]).
  unfold DecodeLastRuneInString in E.
  destruct (Nat.eqb_spec (length s) 0) as [H0|_]; [lia|].
  destruct (N.ltb_spec (byteAt s (length s - 1)) RuneSelf) as [Hascii|Hhigh].
  - inversion E; subst r size; clear E.
    split; [lia|]. split; [|lia].
    intros Hr. rewrite skipn_last_byte by exact Hs.
    intros [<-|[]]. unfold byteAt in Hr. congruence.
  - cbv zeta in E.
    remember (Z.to_nat (Z.max 0 (backUp UTFMax s (Z.of_nat (length s - 1) - 1)
                                   (Z.max 0 (Z.of_nat (length s)
                                             - Z.of_nat UTFMax)))))
      as start eqn:Es.
    assert (Hstart : start < length s).
    { pose proof (backUp_le UTFMax s (Z.of_nat (length s - 1) - 1)
                    (Z.max 0 (Z.of_nat (length s) - Z.of_nat UTFMax))). lia. }
    destruct (DecodeRuneInString (skipn start s)) as [r' size'] eqn:E'.
    assert (Hne : skipn start s <> [])
      by (apply skipn_nonempty; lia).
    destruct (Nat.eqb_spec (start + size') (length s)) as [Hend|_].
    + inversion E; subst r' size'; clear E.
      pose proof (DecodeRuneInString_size _ _ _ Hne E') as Hsize.
      rewrite length_skipn in Hsize.
      replace (length s - size) with start by lia.
      assert (Hall : firstn size (skipn start s) = skipn start s).
      { apply firstn_all2. rewrite length_skipn. lia. }
      split; [lia|]. split.
      * intros Hr. rewrite <- Hall.
        eapply space_rune_bytes; eauto.
      * intros H2 Hin.
        pose proof (DecodeRuneInString_spec _ Hne) as Hspec.
        rewrite E' in Hspec. destruct Hspec as [[-> _]|(_ & Hall' & _)]; [lia|].
        rewrite Hall, Forall_forall in Hall'.
        specialize (Hall' c Hin). lia.
    + inversion E; subst r size; clear E.
      split; [lia|]. split; [|lia].
      rewrite IsSpace_RuneError; discriminate.
Qed.

Lemma lastIndexFunc_loop_keeps (c : ascii) (s : gostring) :
  (byteN c < 0x80)%N -> IsSpace (byteN c) = false ->
  forall (fuel i : nat),
    i <= length s -> i < fuel -> ~ In c (skipn i s) ->
    match lastIndexFunc_loop fuel s IsSpace false i with
    | Some j => j < length s /\ ~ In c (skipn (j + 1) s)
    | None => ~ In c s
    end.
Proof.
  intros Hc Hcs. induction fuel as [|fuel IH]; intros i Hi Hfuel Hpost;
    [lia|].
  cbn [lastIndexFunc_loop].
  destruct (Nat.eqb_spec i 0) as [->|Hi0]; [exact Hpost|].
  destruct (DecodeLastRuneInString (firstn i s)) as [r size] eqn:E.
  assert (Hne : firstn i s <> [])
      by (apply firstn_nonempty; lia).
  destruct (DecodeLastRuneInString_spec _ _ _ c Hne E Hc Hcs)
    as (Hsize & Hsp & Hmulti).
  rewrite length_firstn, Nat.min_l in Hsize, Hsp, Hmulti by lia.
  assert (Hcut : skipn (i - size) s
                 = skipn (i - size) (firstn i s) ++ skipn i s).
  { rewrite <- (firstn_skipn i s) at 1.
    rewrite skipn_app, length_firstn, Nat.min_l by lia.
    replace (i - size - i) with 0 by lia. reflexivity. }
  destruct (IsSpace r) eqn:Hr; cbn [Bool.eqb].
  - apply IH; try lia.
    rewrite Hcut. intros Hin. apply in_app_or in Hin.
    destruct Hin as [Hin|Hin]; [exact (Hsp eq_refl Hin)|exact (Hpost Hin)].
  - split; [lia|].
    destruct (Nat.eq_dec size 1) as [->|Hsz].
    + replace (i - 1 + 1) with i by lia. exact Hpost.
    + intros Hin. apply (In_skipn_le s (i - size)) in Hin; [|lia].
      rewrite Hcut in Hin. apply in_app_or in Hin.
      destruct Hin as [Hin|Hin]; [|exact (Hpost Hin)].
      apply Hmulti; [lia|exact Hin].
Qed.

Lemma TrimRightFunc_count (c : ascii) (s : gostring) :
  (byteN c < 0x80)%N -> IsSpace (byteN c) = false ->
  count_occ ascii_dec (TrimRightFunc s IsSpace) c = count_occ ascii_dec s c.
Proof.
  intros Hc Hcs. unfold TrimRightFunc, lastIndexFunc.
  pose proof (lastIndexFunc_loop_keeps c s Hc Hcs (S (length s)) (length s))
    as H.
  rewrite skipn_all in H. specialize (H ltac:(lia) ltac:(lia) ltac:(auto)).
  destruct (lastIndexFunc_loop (S (length s)) s IsSpace false (length s))
    as [j|].
  - destruct H as [Hj Hpost].
    destruct (RuneSelf <=? byteAt s j)%N.
    + destruct (DecodeRuneInString (skipn j s)) as [r wid] eqn:E.
      assert (Hne : skipn j s <> []).
      { intros H0. apply (f_equal (@length _)) in H0.
        rewrite length_skipn in H0. simpl in H0. lia. }
      pose proof (DecodeRuneInString_size _ _ _ Hne E) as Hwid.
      apply count_occ_firstn. intros Hin.
      apply Hpost. eapply In_skipn_le; [|exact Hin]. lia.
    + apply count_occ_firstn. exact Hpost.
  - cbn [firstn count_occ]. symmetry.
    apply (count_occ_not_In ascii_dec) in H. exact H.
Qed.

(** [TrimSpace] removes no ASCII byte that is not white space, so it keeps
    the number of fields of a line. *)
Lemma TrimSpace_count (c : ascii) (s : gostring) :
  (byteN c < 0x80)%N -> IsSpace (byteN c) = false ->
  count_occ ascii_dec (TrimSpace s) c = count_occ ascii_dec s c.
Proof.
  intros Hc Hcs. unfold TrimSpace.
  rewrite TrimRightFunc_count, TrimLeftFunc_count by assumption.
  reflexivity.
Qed.

Lemma Split_TrimSpace_length (s : gostring) :
  length (Split (TrimSpace s) ","%char) = length (Split s ","%char).
Proof.
  rewrite !Split_length. f_equal.
  apply TrimSpace_count; [reflexivity|reflexivity].
Qed.

(** *** Strings of white space *)

Lemma allRunes_loop_SpaceRunes (fuel : nat) (s : gostring) :
  allRunes_loop fuel s IsSpace = true -> SpaceRunes s.
Proof.
  revert s; induction fuel as [|fuel IH]; intros [|c t] H;
    try constructor; try discriminate.
  cbn [allRunes_loop] in H.
  destruct (DecodeRuneInString (c :: t)) as [r size] eqn:E.
  apply andb_true_iff in H. destruct H as [Hr Hrest].
  eapply SpaceRunes_cons; eauto. discriminate.
Qed.

Lemma DecodeRuneInString_ascii (c : ascii) (t : gostring) :
  (byteN c < 0x80)%N -> DecodeRuneInString (c :: t) = (byteN c, 1).
Proof.
  intros Hc. unfold DecodeRuneInString.
  change (length (c :: t) <? 1) with false.
  change (byteAt (c :: t) 0) with (byteN c).
  unfold first. destruct (N.ltb_spec (byteN c) 0x80); [|lia].
  reflexivity.
Qed.

Lemma SpaceRunes_lines (s : gostring) :
  SpaceRunes s -> Forall SpaceRunes (Split s "010"%char).
Proof.
  induction 1 as [|s r size Hs E Hr Hrest IH].
  - repeat constructor.
  - pose proof (DecodeRuneInString_spec s Hs) as Hspec. rewrite E in Hspec.
    destruct (Split (skipn size s) "010"%char) as [|l ls] eqn:El;
      [exfalso; eapply Split_not_nil; eauto|].
    inversion IH as [|? ? Hl Hls]; subst.
    destruct Hspec as [[-> Hone]|(Hsz & Hbytes & Hstable)].
    + destruct s as [|c t]; [congruence|].
      change (byteAt (c :: t) 0) with (byteN c) in Hone.
      destruct Hone as [[Hc ->]| ->];
        [|rewrite IsSpace_RuneError in Hr; discriminate].
      cbn [skipn] in El. cbn [Split]. rewrite El.
      destruct (Ascii.eqb c "010"%char).
      * constructor; [constructor|constructor; assumption].
      * constructor; [|assumption].
        eapply SpaceRunes_cons;
          [discriminate|apply DecodeRuneInString_ascii; exact Hc|exact Hr|].
        exact Hl.
    + rewrite <- (firstn_skipn size s).
      rewrite Split_app_nosep, El.
      * cbn [hd tl]. constructor; [|assumption].
        assert (Hlen : length (firstn size s) = size)
          by (rewrite length_firstn; lia).
        eapply SpaceRunes_cons; [| apply Hstable | exact Hr |].
        -- destruct (firstn size s); [simpl in Hlen; lia|discriminate].
        -- rewrite skipn_app, Hlen, Nat.sub_diag.
           rewrite skipn_all2 by lia. exact Hl.
      * intros Hin. rewrite Forall_forall in Hbytes.
        specialize (Hbytes _ Hin). vm_compute in Hbytes. congruence.
Qed.

Lemma indexFunc_loop_SpaceRunes (s : gostring) (fuel i : nat) :
  SpaceRunes (skipn i s) -> indexFunc_loop fuel s IsSpace false i = None.
Proof.
  revert i; induction fuel as [|fuel IH]; intros i H; [reflexivity|].
  cbn [indexFunc_loop].
  destruct (Nat.leb_spec (length s) i) as [Hle|Hlt]; [reflexivity|].
  inversion H as [Hnil|s' r size Hs E Hr Hrest Heq].
  - exfalso. symmetry in Hnil. apply (f_equal (@length _)) in Hnil.
    rewrite length_skipn in Hnil. simpl in Hnil. lia.
  - rewrite E, Hr. cbn [Bool.eqb]. apply IH.
    rewrite skipn_skipn in Hrest. rewrite Nat.add_comm. exact Hrest.
Qed.

Lemma TrimSpace_SpaceRunes (s : gostring) :
  SpaceRunes s -> TrimSpace s = [].
Proof.
  intros H. unfold TrimSpace, TrimLeftFunc, indexFunc.
  rewrite indexFunc_loop_SpaceRunes by exact H. reflexivity.
Qed.

(** The fuel of the two index loops is enough: more fuel changes nothing. *)
Lemma indexFunc_loop_fuel (s : gostring) (f : N -> bool) (truth : bool)
    (fuel fuel' i : nat) :
  length s - i < fuel -> length s - i < fuel' ->
  indexFunc_loop fuel s f truth i = indexFunc_loop fuel' s f truth i.
Proof.
  revert fuel' i; induction fuel as [|fuel IH]; intros [|fuel'] i H H';
    try lia.
  cbn [indexFunc_loop].
  destruct (Nat.leb_spec (length s) i) as [Hle|Hlt]; [reflexivity|].
  destruct (DecodeRuneInString (skipn i s)) as [r size] eqn:E.
  assert (Hne : skipn i s <> [])
      by (apply skipn_nonempty; lia).
  pose proof (DecodeRuneInString_size _ _ _ Hne E) as Hsize.
  destruct (Bool.eqb (f r) truth); [reflexivity|].
  apply IH; lia.
Qed.

Lemma lastIndexFunc_loop_fuel (s : gostring) (f : N -> bool) (truth : bool)
    (fuel fuel' i : nat) :
  i <= length s -> i < fuel -> i < fuel' ->
  lastIndexFunc_loop fuel s f truth i = lastIndexFunc_loop fuel' s f truth i.
Proof.
  revert fuel' i; induction fuel as [|fuel IH]; intros [|fuel'] i Hi H H';
    try lia.
  cbn [lastIndexFunc_loop].
  destruct (Nat.eqb_spec i 0) as [->|Hi0]; [reflexivity|].
  destruct (DecodeLastRuneInString (firstn i s)) as [r size] eqn:E.
  assert (Hne : firstn i s <> [])
      by (apply firstn_nonempty; lia).
  destruct (DecodeLastRuneInString_spec _ _ _ ","%char Hne E)
    as (Hsize & _); [reflexivity|reflexivity|].
  rewrite length_firstn in Hsize.
  destruct (Bool.eqb (f r) truth); [reflexivity|].
  apply IH; lia.
Qed.

(** The loop of [DecodeLastRuneInString] stops within its fuel. *)
Lemma backUp_fuel (n : nat) (s : gostring) (start lim : Z) :
  (start - lim < 3)%Z ->
  backUp (UTFMax + n) s start lim = backUp UTFMax s start lim.
Proof.
  intros H. unfold UTFMax. cbn [Nat.add backUp].
  destruct (Z.ltb_spec start lim); [reflexivity|].
  destruct (RuneStart _); [reflexivity|].
  destruct (Z.ltb_spec (start - 1) lim); [reflexivity|].
  destruct (RuneStart _); [reflexivity|].
  destruct (Z.ltb_spec (start - 1 - 1) lim); [reflexivity|].
  destruct (RuneStart _); [reflexivity|].
  destruct (Z.ltb_spec (start - 1 - 1 - 1) lim); [|lia].
  destruct n; reflexivity.
Qed.

(** [whitespaceOnly] decides [SpaceRunes]. *)
Lemma SpaceRunes_allRunes_loop (s : gostring) :
  SpaceRunes s ->
  forall fuel, length s <= fuel -> allRunes_loop fuel s IsSpace = true.
Proof.
  induction 1 as [|s r size Hs E Hr Hrest IH]; intros fuel Hfuel.
  - destruct fuel; reflexivity.
  - pose proof (DecodeRuneInString_size _ _ _ Hs E) as Hsize.
    destruct s as [|c t]; [congruence|].
    destruct fuel as [|fuel]; [simpl in Hfuel; lia|].
    cbn [allRunes_loop]. rewrite E, Hr. cbn [andb].
    apply IH. rewrite length_skipn. lia.
Qed.

Lemma whitespaceOnly_iff (s : gostring) :
  whitespaceOnly s = true <-> SpaceRunes s.
Proof.
  split.
  - apply allRunes_loop_SpaceRunes.
  - intros H. apply SpaceRunes_allRunes_loop; [exact H|lia].
Qed.

Example whitespaceOnly_unicode :
  whitespaceOnly (" " ++ [ascii_of_nat 194; ascii_of_nat 160] ++ nl_tab
                      ++ [ascii_of_nat 226; ascii_of_nat 128;
                          ascii_of_nat 168]) = true.
Proof. reflexivity. Qed.

End GoLibFacts.

(** ** Properties of the parser *)

Section Parser.

Lemma parseLine_row (jobs : list JobStatus) (row : gostring) :
  parseLine jobs row =
  jobs ++ (if 5 <=? fieldCount row then [jobOfRow row] else []).
Proof.
  unfold parseLine, fieldCount, jobOfRow, field, fieldCount, comma.
  rewrite Split_TrimSpace_length.
  destruct (eqs (TrimSpace row) []) eqn:Eempty.
  - apply eqs_true_iff in Eempty.
    pose proof (Split_TrimSpace_length row) as Hlen.
    rewrite Eempty in Hlen. cbn in Hlen. rewrite <- Hlen.
    cbn. rewrite app_nil_r. reflexivity.
  - destruct (5 <=? length (Split row ","%char));
      [|rewrite app_nil_r; reflexivity].
    destruct (6 <=? length (Split row ","%char)); reflexivity.
Qed.

Lemma fold_parseLine (rows : list gostring) (jobs : list JobStatus) :
  fold_left parseLine rows jobs =
  jobs ++ map jobOfRow (filter (fun row => 5 <=? fieldCount row) rows).
Proof.
  revert jobs; induction rows as [|row rows IH]; intros jobs; cbn [fold_left].
  - cbn. rewrite app_nil_r. reflexivity.
  - rewrite IH, parseLine_row. cbn [filter].
    destruct (5 <=? fieldCount row); cbn [map].
    + rewrite <- app_assoc. reflexivity.
    + rewrite app_nil_r. reflexivity.
Qed.

Lemma parseJobStatusOutput_rows (output status : gostring) :
  parseJobStatusOutput output status =
  (map jobOfRow (filter (fun row => 5 <=? fieldCount row) (dataRows output)),
   None).
Proof.
  unfold parseJobStatusOutput, dataRows.
  destruct (Nat.ltb_spec (length (Split output newline)) 2) as [Hlt|Hge].
  - destruct (Split output newline) as [|h [|r rs]]; cbn in Hlt; try lia;
      reflexivity.
  - rewrite fold_parseLine. reflexivity.
Qed.

Lemma SpaceRunes_fieldCount (row : gostring) :
  SpaceRunes row -> fieldCount row = 1.
Proof.
  intros H. unfold fieldCount, comma.
  rewrite <- Split_TrimSpace_length, (TrimSpace_SpaceRunes row H).
  reflexivity.
Qed.

(** C4: the parser yields one JobStatus for each data row with at least
    five comma-separated fields, in the order of the rows; a row with fewer
    fields yields none and the rows after it are still parsed. *)
Theorem parser_one_job_per_row_of_five_fields (output status : gostring) :
  fst (parseJobStatusOutput output status) =
  map jobOfRow (filter (fun row => 5 <=? fieldCount row) (dataRows output)).
Proof.
  rewrite parseJobStatusOutput_rows. reflexivity.
Qed.

(** C5: the error result of the parser is nil on every input, and an
    empty or white-space-only input yields no JobStatus. *)
Theorem parser_never_fails (output status : gostring) :
  snd (parseJobStatusOutput output status) = None /\
  fst (parseJobStatusOutput [] status) = [] /\
  (whitespaceOnly output = true ->
   fst (parseJobStatusOutput output status) = []).
Proof.
  split; [rewrite parseJobStatusOutput_rows; reflexivity|].
  split; [reflexivity|].
  intros Hws. rewrite parseJobStatusOutput_rows. cbn [fst].
  apply allRunes_loop_SpaceRunes, SpaceRunes_lines in Hws.
  unfold dataRows, newline.
  assert (Hrows : Forall SpaceRunes (skipn 1 (Split output "010"%char))).
  { rewrite Forall_forall in *. intros row Hin. apply Hws.
    eapply (In_skipn_le _ 0 1); [lia|exact Hin]. }
  induction Hrows as [|row rows Hrow _ IH]; [reflexivity|].
  cbn [filter]. rewrite (SpaceRunes_fieldCount row Hrow). exact IH.
Qed.

Lemma parser_never_fails_witness :
  fst (parseJobStatusOutput ("  " ++ nl ++ " " ++ crlf ++ "   ") "Failed")
  = [].
Proof.
  apply (parser_never_fails ("  " ++ nl ++ " " ++ crlf ++ "   ") "Failed").
  reflexivity.
Defined.

(** C3, as the code has it: the duration of a JobStatus is the sixth field
    of its row when the row has one, and is empty otherwise; the status
    plays no part. *)
Theorem parser_duration_is_sixth_field (output status : gostring)
    (job : JobStatus) :
  In job (fst (parseJobStatusOutput output status)) ->
  exists row,
    In row (dataRows output) /\ 5 <= fieldCount row /\ job = jobOfRow row /\
    Duration job = (if 6 <=? fieldCount row then field row 5 else []) /\
    (Duration job <> [] -> 6 <= fieldCount row).
Proof.
  rewrite parseJobStatusOutput_rows. cbn [fst]. intros Hin.
  apply in_map_iff in Hin. destruct Hin as (row & <- & Hrow).
  apply filter_In in Hrow. destruct Hrow as [Hrow H5].
  apply Nat.leb_le in H5.
  exists row. repeat split; try assumption.
  cbn [jobOfRow Duration].
  destruct (Nat.leb_spec 6 (fieldCount row)) as [H6|H6];
    [intros _; assumption|].
  intros Hd; exfalso; apply Hd; reflexivity.
Qed.

Lemma parser_duration_is_sixth_field_witness :
  exists row,
    In row (dataRows ("Name,Status" ++ nl ++ "a,Running,s,e,d,12.5")) /\
    5 <= fieldCount row /\
    mkJobStatus "a" "Running" "s" "e" "d" "12.5" = jobOfRow row /\
    Duration (mkJobStatus "a" "Running" "s" "e" "d" "12.5")
    = (if 6 <=? fieldCount row then field row 5 else []) /\
    (Duration (mkJobStatus "a" "Running" "s" "e" "d" "12.5") <> [] ->
     6 <= fieldCount row).
Proof.
  apply (parser_duration_is_sixth_field
           ("Name,Status" ++ nl ++ "a,Running,s,e,d,12.5") "Running").
  vm_compute. left; reflexivity.
Defined.

(** C3 as stated fails: a row of the Failed query with a sixth field
    yields a JobStatus with status Failed and a duration. *)
Lemma parser_duration_for_failed_job :
  ~ durationOnlyForRunning
      (fst (parseJobStatusOutput
              ("Name,LastResult,LastStart,LastEnd,Description" ++ nl ++
               quoted "JobA" ++ "," ++ quoted "Failed" ++ "," ++
               quoted "2024-01-01" ++ "," ++ quoted "2024-01-01" ++ "," ++
               quoted "Disk full" ++ "," ++ quoted "12.5")
              "Failed")).
Proof.
  vm_compute. intros H. inversion H as [|? ? Hjob _]; subst.
  assert (Hne : list_ascii_of_string "12.5" <> []) by discriminate.
  specialize (Hjob Hne). discriminate Hjob.
Qed.

End Parser.

(** ** Properties of the digest *)

Section Digest.

Lemma status_cases (job : JobStatus) :
  (hasStatus "Failed" job = true /\ hasStatus "Warning" job = false
   /\ hasStatus "Running" job = false) \/
  (hasStatus "Failed" job = false /\ hasStatus "Warning" job = true
   /\ hasStatus "Running" job = false) \/
  (hasStatus "Failed" job = false /\ hasStatus "Warning" job = false
   /\ hasStatus "Running" job = true) \/
  (hasStatus "Failed" job = false /\ hasStatus "Warning" job = false
   /\ hasStatus "Running" job = false).
Proof.
  unfold hasStatus.
  destruct (eqs (Status job) "Failed") eqn:EF.
  { apply eqs_true_iff in EF. rewrite EF. left. repeat split. }
  destruct (eqs (Status job) "Warning") eqn:EW.
  { apply eqs_true_iff in EW. rewrite EW. right; left. repeat split. }
  destruct (eqs (Status job) "Running") eqn:ER; auto 10.
Qed.

Lemma fold_groupStep (jobs failedJobs warningJobs runningJobs
                        : list JobStatus) :
  fold_left groupStep jobs (failedJobs, warningJobs, runningJobs) =
  (failedJobs ++ filter (hasStatus "Failed") jobs,
   warningJobs ++ filter (hasStatus "Warning") jobs,
   runningJobs ++ filter (hasStatus "Running") jobs).
Proof.
  revert failedJobs warningJobs runningJobs.
  induction jobs as [|job jobs IH]; intros f w r; cbn [fold_left filter].
  - rewrite !app_nil_r. reflexivity.
  - unfold groupStep at 2.
    destruct (status_cases job)
      as [(EF & EW & ER)|[(EF & EW & ER)|[(EF & EW & ER)|(EF & EW & ER)]]];
      rewrite EF, EW, ER; unfold hasStatus in EF, EW, ER;
      rewrite ?EF, ?EW, ?ER; rewrite IH, <- ?app_assoc; reflexivity.
Qed.

Lemma groupJobs_filter (jobs : list JobStatus) :
  groupJobs jobs =
  (filter (hasStatus "Failed") jobs, filter (hasStatus "Warning") jobs,
   filter (hasStatus "Running") jobs).
Proof. unfold groupJobs. rewrite fold_groupStep. reflexivity. Qed.

Lemma groups_permutation (jobs : list JobStatus) :
  Permutation
    (filter (hasStatus "Failed") jobs ++ filter (hasStatus "Warning") jobs
       ++ filter (hasStatus "Running") jobs)
    (filter knownStatus jobs).
Proof.
  induction jobs as [|job jobs IH]; [constructor|].
  cbn [filter]. unfold knownStatus at 1.
  destruct (status_cases job)
    as [(EF & EW & ER)|[(EF & EW & ER)|[(EF & EW & ER)|(EF & EW & ER)]]];
    rewrite EF, EW, ER; cbn [orb].
  - cbn [app]. constructor. exact IH.
  - cbn [app]. apply Permutation_sym, Permutation_cons_app, Permutation_sym.
    exact IH.
  - rewrite app_assoc. cbn [app].
    apply Permutation_sym, Permutation_cons_app, Permutation_sym.
    rewrite <- app_assoc. exact IH.
  - exact IH.
Qed.

Lemma filter_all {A : Type} (f : A -> bool) (l : list A) :
  Forall (fun x => f x = true) l -> filter f l = l.
Proof.
  induction 1 as [|x l Hx _ IH]; [reflexivity|].
  cbn [filter]. rewrite Hx, IH. reflexivity.
Qed.

(** C2, as the code has it: the subject line states the number of input
    records; the three groups are the records with status Failed, Warning
    and Running, each in input order, and together they are the records
    with one of these statuses; so the section counts add up to the count
    of the subject when every record has one of the three statuses. *)
Theorem digest_groups_partition_known_statuses (jobs : list JobStatus) :
  subjectLine jobs =
    "ALERT: " ++ itoa (Z.of_nat (length jobs))
              ++ " Veeam Backup Jobs Need Attention" /\
  groupJobs jobs =
    (filter (hasStatus "Failed") jobs, filter (hasStatus "Warning") jobs,
     filter (hasStatus "Running") jobs) /\
  Permutation
    (filter (hasStatus "Failed") jobs ++ filter (hasStatus "Warning") jobs
       ++ filter (hasStatus "Running") jobs)
    (filter knownStatus jobs) /\
  (Forall (fun job => knownStatus job = true) jobs ->
   sectionCountsMatchSubject jobs).
Proof.
  split; [reflexivity|]. split; [apply groupJobs_filter|].
  split; [apply groups_permutation|].
  intros Hknown. unfold sectionCountsMatchSubject.
  rewrite groupJobs_filter.
  pose proof (Permutation_length (groups_permutation jobs)) as Hlen.
  rewrite !length_app, (filter_all _ _ Hknown) in Hlen. lia.
Qed.

Lemma digest_groups_partition_known_statuses_witness :
  sectionCountsMatchSubject
    [ mkJobStatus "JobB" "Running" "s" "N/A" "d" "130.5";
      mkJobStatus "JobA" "Failed" "s" "e" "Disk full" [];
      mkJobStatus "JobC" "Warning" "s" "e" "d" [] ].
Proof.
  apply (digest_groups_partition_known_statuses
           [ mkJobStatus "JobB" "Running" "s" "N/A" "d" "130.5";
             mkJobStatus "JobA" "Failed" "s" "e" "Disk full" [];
             mkJobStatus "JobC" "Warning" "s" "e" "d" [] ]).
  repeat constructor.
Defined.

(** C2 as stated fails: a record with another status is counted in the
    subject line and put in no group. *)
Lemma digest_drops_unknown_status :
  ~ sectionCountsMatchSubject
      [ mkJobStatus "JobA" "Success" "2024-01-01" "2024-01-01" [] [] ].
Proof. vm_compute. discriminate. Qed.

(** Such a record comes out of the parser when a job name holds a comma:
    the fields shift and the status is read from the name. *)
Example parser_status_from_job_name :
  fst (parseJobStatusOutput
         ("Name,LastResult,LastStart,LastEnd,Description" ++ nl ++
          quoted "Backup, nightly" ++ "," ++ quoted "Failed" ++ "," ++
          quoted "2024-01-01" ++ "," ++ quoted "2024-01-02" ++ "," ++
          quoted "Disk full")
         "Failed") =
  [ mkJobStatus "Backup" " nightly" "Failed" "2024-01-01" "2024-01-02"
                "Disk full" ].
Proof. vm_compute. reflexivity. Qed.

(** *** The body, section by section *)

Lemma fold_jobBlock (group : list JobStatus) (body : gostring) :
  fold_left (fun body job => body ++ jobBlock job) group body =
  body ++ concat (map jobBlock group).
Proof.
  revert body; induction group as [|job group IH]; intros body;
    cbn [fold_left map concat].
  - rewrite app_nil_r. reflexivity.
  - rewrite IH, <- app_assoc. reflexivity.
Qed.

Lemma fold_appendRunning_None (group : list JobStatus) :
  fold_left appendRunning group None = None.
Proof. induction group as [|job group IH]; [reflexivity|exact IH]. Qed.

Lemma fold_appendRunning (group : list JobStatus) (body : gostring) :
  fold_left appendRunning group (Some body) =
  match runningBlocks group with
  | Some blocks => Some (body ++ blocks)
  | None => None
  end.
Proof.
  revert body; induction group as [|job group IH]; intros body;
    cbn [fold_left runningBlocks appendRunning].
  - rewrite app_nil_r. reflexivity.
  - destruct (runningBlock job) as [block|].
    + rewrite IH. destruct (runningBlocks group) as [blocks|];
        [rewrite <- app_assoc|]; reflexivity.
    + apply fold_appendRunning_None.
Qed.

Lemma digestBody_sections (jobs : list JobStatus) :
  digestBody jobs =
  match runningSection (filter (hasStatus "Running") jobs) with
  | Some running =>
      Some (reportHeader
              ++ plainSection "FAILED JOBS" "--------------"
                   (filter (hasStatus "Failed") jobs)
              ++ plainSection "WARNING JOBS" "----------------"
                   (filter (hasStatus "Warning") jobs)
              ++ running ++ reportFooter)
  | None => None
  end.
Proof.
  unfold digestBody. rewrite groupJobs_filter.
  destruct (filter (hasStatus "Failed") jobs) as [|fj fjs];
    destruct (filter (hasStatus "Warning") jobs) as [|wj wjs];
    destruct (filter (hasStatus "Running") jobs) as [|rj rjs];
    cbv beta iota zeta;
    change (0 <? length (@nil JobStatus)) with false;
    repeat match goal with
           | |- context [0 <? length (?j :: ?l)] =>
               change (0 <? length (j :: l)) with true
           end;
    cbv iota;
    rewrite ?fold_jobBlock, ?fold_appendRunning;
    unfold runningSection, plainSection, reportHeader, reportFooter;
    repeat match goal with
           | |- context [runningBlocks ?g] => destruct (runningBlocks g)
           end;
    try reflexivity;
    f_equal; rewrite <- ?app_assoc, ?app_nil_r; cbn [app];
    rewrite <- ?app_assoc; reflexivity.
Qed.

(** C6: the body is the header, then the Failed section, then the
    Warning section, then the Running section, then the footer, whatever
    the order of the input records; each section is made of the records of
    its status, and the section of an empty group is the empty text.  When
    a block of the Running section panics there is no body at all. *)
Theorem digest_sections_in_fixed_order (jobs : list JobStatus) :
  digestBody jobs =
    match runningSection (filter (hasStatus "Running") jobs) with
    | Some running =>
        Some (reportHeader
                ++ plainSection "FAILED JOBS" "--------------"
                     (filter (hasStatus "Failed") jobs)
                ++ plainSection "WARNING JOBS" "----------------"
                     (filter (hasStatus "Warning") jobs)
                ++ running ++ reportFooter)
    | None => None
    end /\
  plainSection "FAILED JOBS" "--------------" [] = [] /\
  plainSection "WARNING JOBS" "----------------" [] = [] /\
  runningSection [] = Some [].
Proof.
  split; [apply digestBody_sections|]. repeat split.
Qed.

(** The example of the specification: one failed job. *)
Example digest_of_one_failed_job :
  digestBody [ mkJobStatus "JobA" "Failed" "2024-01-01" "2024-01-01"
                           "Disk full" [] ] =
  Some ("Veeam Backup & Replication Job Status Report" ++ nl ++
        "===========================================" ++ nl ++ nl ++
        "FAILED JOBS (1):" ++ nl ++
        "--------------" ++ nl ++
        "Job: JobA" ++ nl ++ "Status: Failed" ++ nl ++
        "Start Time: 2024-01-01" ++ nl ++ "End Time: 2024-01-01" ++ nl ++
        "Description: Disk full" ++ nl ++ nl ++ nl ++ nl ++
        "This is an automated message from the Veeam Backup Monitor." ++ nl).
Proof. vm_compute. reflexivity. Qed.

(** *** The duration suffix of a Running block *)

Lemma Split_first (s : gostring) (sep : ascii) :
  nth_error (Split s sep) 0 = Some (beforeFirst sep s).
Proof.
  induction s as [|c s IH]; cbn [Split beforeFirst]; [reflexivity|].
  destruct (Ascii.eqb c sep); [reflexivity|].
  destruct (Split s sep) as [|f fs]; cbn in *; congruence.
Qed.

Lemma Split_second (s : gostring) (sep : ascii) :
  nth_error (Split s sep) 1 = None <-> ~ In sep s.
Proof.
  assert (H : length (Split s sep) <= 1 <-> ~ In sep s).
  { rewrite Split_length, (count_occ_not_In ascii_dec). lia. }
  rewrite <- H. apply nth_error_None.
Qed.

Lemma durationText_empty (job : JobStatus) :
  Duration job = [] -> durationText job = Some [].
Proof. intros E. unfold durationText. rewrite E. reflexivity. Qed.

Lemma durationText_period (job : JobStatus) :
  Duration job <> [] -> In period (Duration job) ->
  durationText job =
  Some (" (Running for " ++ beforeFirst period (Duration job) ++ " minutes)").
Proof.
  intros Hne Hin. unfold durationText.
  apply eqs_false_iff in Hne. rewrite Hne. cbn [negb].
  rewrite Split_first.
  destruct (nth_error (Split (Duration job) period) 1) eqn:E; [reflexivity|].
  apply Split_second in E. contradiction.
Qed.

Lemma durationText_no_period (job : JobStatus) :
  Duration job <> [] -> ~ In period (Duration job) ->
  durationText job = None.
Proof.
  intros Hne Hin. unfold durationText.
  apply eqs_false_iff in Hne. rewrite Hne. cbn [negb].
  rewrite Split_first.
  apply Split_second in Hin. rewrite Hin. reflexivity.
Qed.

Example durationText_45_231 :
  durationText (mkJobStatus "JobB" "Running" "s" "N/A" "d" "45.231")
  = Some (list_ascii_of_string " (Running for 45 minutes)").
Proof. reflexivity. Qed.

(** C1: a Running record whose duration is not empty and has no period:
    the index expression [strings.Split(job.Duration, ".")[1]] is out of
    range, the block is not rendered and no body is produced. *)
Theorem running_block_panics_without_period :
  runningBlock (mkJobStatus "JobB" "Running" "2024-01-01 08:00" "N/A"
                  "Long-running job (over 120 minutes): Currently running"
                  "130") = None /\
  digestBody [ mkJobStatus "JobB" "Running" "2024-01-01 08:00" "N/A"
                 "Long-running job (over 120 minutes): Currently running"
                 "130" ] = None.
Proof. split; vm_compute; reflexivity. Qed.

End Digest.

(** ** Properties of the effectful code *)

Section Effects.

Lemma bind_trace {A B : Type} (m : M A) (k : A -> M B) :
  trace (bind m k) =
  trace m ++ match result m with
             | Some a => trace (k a)
             | None => []
             end.
Proof.
  destruct m as [t [a|]]; cbn [bind trace result fst snd].
  - destruct (k a); reflexivity.
  - rewrite app_nil_r; reflexivity.
Qed.

Lemma bind_result {A B : Type} (m : M A) (k : A -> M B) :
  result (bind m k) =
  match result m with
  | Some a => result (k a)
  | None => None
  end.
Proof.
  destruct m as [t [a|]]; cbn [bind trace result fst snd]; [|reflexivity].
  destruct (k a); reflexivity.
Qed.

Lemma countSendMail_app (t t' : list Event) :
  countSendMail (t ++ t') = countSendMail t + countSendMail t'.
Proof. unfold countSendMail. rewrite filter_app, length_app. reflexivity. Qed.

(** *** loadConfig *)

Variable ReadFile : gostring -> gostring * option error.
Variable Unmarshal : gostring -> Config -> Config * option error.

(** C7: a configuration loaded from a file has its interval and its
    threshold replaced by 15 and 120 when they are less than 1, and failed
    job monitoring switched on when the three toggles are off; so its
    interval and threshold are at least 1 and a category is enabled. *)
Theorem loadConfig_enforces_floors (filePath : gostring) (config : Config) :
  result (loadConfig ReadFile Unmarshal filePath) = Some (inl config) ->
  exists (data : gostring) (parsed : Config),
    ReadFile filePath = (data, None) /\
    Unmarshal data zeroConfig = (parsed, None) /\
    CheckIntervalMinutes config =
      (if (CheckIntervalMinutes parsed <? 1)%Z then 15%Z
       else CheckIntervalMinutes parsed) /\
    LongRunningThreshold config =
      (if (LongRunningThreshold parsed <? 1)%Z then 120%Z
       else LongRunningThreshold parsed) /\
    MonitorFailedJobs config =
      (if negb (MonitorFailedJobs parsed) && negb (MonitorWarningJobs parsed)
          && negb (MonitorRunningJobs parsed)
       then true else MonitorFailedJobs parsed) /\
    MonitorWarningJobs config = MonitorWarningJobs parsed /\
    MonitorRunningJobs config = MonitorRunningJobs parsed /\
    (1 <= CheckIntervalMinutes config)%Z /\
    (1 <= LongRunningThreshold config)%Z /\
    (MonitorFailedJobs config || MonitorWarningJobs config
     || MonitorRunningJobs config = true).
Proof.
  unfold loadConfig.
  destruct (ReadFile filePath) as [data [err|]] eqn:ERead; [discriminate|].
  destruct (Unmarshal data zeroConfig) as [parsed [err|]] eqn:EParse;
    [discriminate|].
  intros H. exists data, parsed.
  split; [reflexivity|]. split; [exact EParse|]. clear ERead EParse.
  destruct parsed as [m a interval srv port from to pw mf mw mr thr].
  cbn [CheckIntervalMinutes LongRunningThreshold MonitorFailedJobs
       MonitorWarningJobs MonitorRunningJobs] in *.
  destruct (Z.ltb_spec interval 1) as [Hi|Hi];
    destruct (Z.ltb_spec thr 1) as [Ht|Ht];
    destruct mf, mw, mr;
    cbv [bind ret logPrint emit result snd negb andb
         setCheckIntervalMinutes setMonitorFailedJobs
         setLongRunningThreshold] in H;
    cbn [CheckIntervalMinutes LongRunningThreshold MonitorFailedJobs
         MonitorWarningJobs MonitorRunningJobs] in H;
    repeat match type of H with
           | context [(?x <? 1)%Z] =>
               destruct (Z.ltb_spec x 1); try lia
           end;
    cbv beta iota in H; inversion H; subst config;
    cbn [CheckIntervalMinutes LongRunningThreshold MonitorFailedJobs
         MonitorWarningJobs MonitorRunningJobs negb andb orb];
    repeat split; try reflexivity; lia.
Qed.

End Effects.

Lemma loadConfig_enforces_floors_witness :
  exists (data : gostring) (parsed : Config),
    demoReadFile "config.json" = (data, None) /\
    demoUnmarshal data zeroConfig = (parsed, None) /\
    15%Z = (if (CheckIntervalMinutes parsed <? 1)%Z then 15%Z
            else CheckIntervalMinutes parsed) /\
    120%Z = (if (LongRunningThreshold parsed <? 1)%Z then 120%Z
             else LongRunningThreshold parsed) /\
    true = (if negb (MonitorFailedJobs parsed)
               && negb (MonitorWarningJobs parsed)
               && negb (MonitorRunningJobs parsed)
            then true else MonitorFailedJobs parsed) /\
    false = MonitorWarningJobs parsed /\
    false = MonitorRunningJobs parsed /\
    (1 <= 15)%Z /\ (1 <= 120)%Z /\ (true || false || false = true).
Proof.
  apply (loadConfig_enforces_floors demoReadFile demoUnmarshal "config.json"
           (mkConfig [] "veeam01" 15 "smtp.example.com" 25
                     "alerts@example.com" [("admin@example.com" : gostring)] []
                     true false false 120)).
  reflexivity.
Defined.

Section Cycle.

Variable CombinedOutput : PSCommand -> gostring * option error.
Variable SendMail :
  gostring -> option Auth -> gostring -> list gostring -> gostring
  -> option error.

Lemma collectProblematicJobs_run (config : Config) :
  result (collectProblematicJobs CombinedOutput config) =
    Some (contribution (MonitorFailedJobs config)
            (getJobsByStatus CombinedOutput config "Failed")
          ++ contribution (MonitorWarningJobs config)
               (getJobsByStatus CombinedOutput config "Warning")
          ++ contribution (MonitorRunningJobs config)
               (getLongRunningJobs CombinedOutput config)) /\
  countSendMail (trace (collectProblematicJobs CombinedOutput config)) = 0.
Proof.
  unfold collectProblematicJobs, contribution, getJobsByStatus,
    getLongRunningJobs, runPowerShell.
  destruct (CombinedOutput
              (JobsByStatusScript (VeeamPowerShellModule config)
                 (VeeamServerAddress config) "Failed")) as [o1 e1].
  destruct (CombinedOutput
              (JobsByStatusScript (VeeamPowerShellModule config)
                 (VeeamServerAddress config) "Warning")) as [o2 e2].
  destruct (CombinedOutput
              (LongRunningJobsScript (VeeamPowerShellModule config)
                 (VeeamServerAddress config) (LongRunningThreshold config)))
    as [o3 e3].
  destruct (MonitorFailedJobs config), (MonitorWarningJobs config),
    (MonitorRunningJobs config), e1, e2, e3;
    cbv [bind ret emit logPrint result trace fst snd countSendMail];
    rewrite ?parseJobStatusOutput_rows; cbv beta iota;
    cbn [app filter isSendMail length];
    rewrite <- ?app_assoc, ?app_nil_r; split; reflexivity.
Qed.

(** C8: the merged list is made of the jobs of every enabled category
    whose query succeeded, in the order Failed, Warning, long-running; a
    category whose query failed adds nothing and takes nothing away. *)
Theorem poll_categories_are_independent (config : Config) :
  result (collectProblematicJobs CombinedOutput config) =
    Some (contribution (MonitorFailedJobs config)
            (getJobsByStatus CombinedOutput config "Failed")
          ++ contribution (MonitorWarningJobs config)
               (getJobsByStatus CombinedOutput config "Warning")
          ++ contribution (MonitorRunningJobs config)
               (getLongRunningJobs CombinedOutput config)).
Proof. apply collectProblematicJobs_run. Qed.

(** *** sendEmailAlert *)

Lemma sendEmailAlert_run (problematicJobs : list JobStatus)
    (config : Config) :
  sendEmailAlert SendMail problematicJobs config =
  match digestBody problematicJobs with
  | Some body =>
      let msg :=
        "From: " ++ EmailFrom config ++ crlf ++
        "To: " ++ Join (EmailTo config) ", " ++ crlf ++
        "Subject: " ++ subjectLine problematicJobs ++ crlf ++
        crlf ++ body in
      let auth :=
        if eqs (EmailPassword config) []
        then None
        else Some (PlainAuth [] (EmailFrom config) (EmailPassword config)
                             (SMTPServer config)) in
      let addr := SMTPServer config ++ ":" ++ itoa (SMTPPort config) in
      ([EvSendMail addr auth (EmailFrom config) (EmailTo config) msg],
       Some (SendMail addr auth (EmailFrom config) (EmailTo config) msg))
  | None => ([], None)
  end.
Proof.
  unfold sendEmailAlert, smtpSendMail, orPanic.
  destruct (digestBody problematicJobs) as [body|]; [|reflexivity].
  destruct (eqs (EmailPassword config) []); reflexivity.
Qed.

(** C10: when the body has been built, sendEmailAlert makes one call of
    smtp.SendMail and nothing else; the call has a PlainAuth credential
    exactly when the password is not empty, and no credential otherwise;
    its message has one To header with all the recipients joined by a
    comma and a space, and the call is given the recipient list. *)
Theorem dispatch_is_one_delivery (problematicJobs : list JobStatus)
    (config : Config) (body : gostring) :
  digestBody problematicJobs = Some body ->
  exists (a : option Auth),
    let addr := SMTPServer config ++ ":" ++ itoa (SMTPPort config) in
    let msg :=
      "From: " ++ EmailFrom config ++ crlf ++
      "To: " ++ Join (EmailTo config) ", " ++ crlf ++
      "Subject: " ++ subjectLine problematicJobs ++ crlf ++
      crlf ++ body in
    sendEmailAlert SendMail problematicJobs config =
      ([EvSendMail addr a (EmailFrom config) (EmailTo config) msg],
       Some (SendMail addr a (EmailFrom config) (EmailTo config) msg)) /\
    (EmailPassword config <> [] ->
     a = Some (PlainAuth [] (EmailFrom config) (EmailPassword config)
                         (SMTPServer config))) /\
    (EmailPassword config = [] -> a = None) /\
    (a <> None <-> EmailPassword config <> []).
Proof.
  intros Hbody. rewrite sendEmailAlert_run, Hbody. cbv zeta.
  destruct (eqs (EmailPassword config) []) eqn:Epw.
  - apply eqs_true_iff in Epw. exists None.
    split; [reflexivity|]. repeat split; congruence.
  - apply eqs_false_iff in Epw. eexists.
    split; [reflexivity|]. repeat split; congruence.
Qed.

(** *** The poll cycle *)

(** C9: a poll cycle calls smtp.SendMail at most once, and not at all
    when the merged list of problematic jobs is empty. *)
Theorem dispatch_only_for_problematic_jobs (config : Config) :
  exists (jobs : list JobStatus),
    result (collectProblematicJobs CombinedOutput config) = Some jobs /\
    countSendMail (trace (pollCycle CombinedOutput SendMail config)) =
      (if 0 <? length jobs
       then match digestBody jobs with Some _ => 1 | None => 0 end
       else 0) /\
    (jobs = [] ->
     countSendMail (trace (pollCycle CombinedOutput SendMail config)) = 0) /\
    (0 < countSendMail (trace (pollCycle CombinedOutput SendMail config)) ->
     jobs <> []).
Proof.
  destruct (collectProblematicJobs_run config) as [Hres Hcnt].
  destruct (collectProblematicJobs CombinedOutput config) as [t [jobs|]]
    eqn:Ecollect; cbn [result trace fst snd] in *; [|discriminate].
  clear Hres. exists jobs. split; [reflexivity|].
  assert (Hcount :
            countSendMail (trace (pollCycle CombinedOutput SendMail config)) =
            (if 0 <? length jobs
             then match digestBody jobs with Some _ => 1 | None => 0 end
             else 0)).
  { unfold pollCycle. rewrite Ecollect.
    destruct jobs as [|job jobs'].
    - cbv [bind ret emit logPrint trace fst].
      cbn [length Nat.ltb Nat.leb].
      rewrite !countSendMail_app, Hcnt. reflexivity.
    - cbv [bind]. change (0 <? length (job :: jobs')) with true. cbv iota.
      rewrite sendEmailAlert_run.
      destruct (digestBody (job :: jobs')) as [body|]; cbv zeta.
      + destruct (SendMail _ _ _ _ _);
          cbv [ret emit logPrint trace fst];
          rewrite !countSendMail_app, Hcnt; reflexivity.
      + cbv [ret emit logPrint trace fst].
        rewrite !countSendMail_app, Hcnt. reflexivity. }
  split; [exact Hcount|]. rewrite Hcount. split.
  - intros ->. reflexivity.
  - intros Hpos ->. cbn in Hpos. lia.
Qed.

End Cycle.

(** One failing category: the Failed query and the long-running query
    fail, and the record of the Warning query is in the merged list. *)
Example poll_with_failing_categories :
  result (collectProblematicJobs demoOutput demoConfig) =
  Some [ mkJobStatus "JobC" "Warning" "2024-01-01" "2024-01-02" "Retried" [] ].
Proof. vm_compute. reflexivity. Qed.

Example poll_with_failing_categories_sends_once :
  countSendMail (trace (pollCycle demoOutput demoSendMail demoConfig)) = 1.
Proof. vm_compute. reflexivity. Qed.

(** The record of C1 comes out of the long-running query, and the cycle
    that meets it panics before any mail is sent. *)
Example poll_cycle_panics_on_whole_minutes :
  result (collectProblematicJobs wholeMinutesOutput demoConfig) =
    Some [ mkJobStatus "JobB" "Running" "2024-01-01 08:00" "N/A"
             "Long-running job (over 120 minutes): Currently running"
             "130" ] /\
  result (pollCycle wholeMinutesOutput demoSendMail demoConfig) = None /\
  countSendMail (trace (pollCycle wholeMinutesOutput demoSendMail demoConfig))
  = 0.
Proof. vm_compute. repeat split. Qed.

Lemma dispatch_only_for_problematic_jobs_witness :
  countSendMail (trace (pollCycle deadOutput demoSendMail demoConfig)) = 0.
Proof.
  destruct (dispatch_only_for_problematic_jobs deadOutput demoSendMail
              demoConfig) as (jobs & Hjobs & _ & Hempty & _).
  apply Hempty.
  vm_compute in Hjobs. congruence.
Defined.

Lemma dispatch_is_one_delivery_witness :
  exists (a : option Auth),
    sendEmailAlert demoSendMail
      [ mkJobStatus "JobA" "Failed" "2024-01-01" "2024-01-01" "Disk full" [] ]
      demoConfig =
    ([EvSendMail "smtp.example.com:25" a "alerts@example.com"
        [("admin@example.com" : gostring); ("ops@example.com" : gostring)]
        ("From: alerts@example.com" ++ crlf ++
         "To: admin@example.com, ops@example.com" ++ crlf ++
         "Subject: ALERT: 1 Veeam Backup Jobs Need Attention" ++ crlf ++
         crlf ++
         "Veeam Backup & Replication Job Status Report" ++ nl ++
         "===========================================" ++ nl ++ nl ++
         "FAILED JOBS (1):" ++ nl ++
         "--------------" ++ nl ++
         "Job: JobA" ++ nl ++ "Status: Failed" ++ nl ++
         "Start Time: 2024-01-01" ++ nl ++ "End Time: 2024-01-01" ++ nl ++
         "Description: Disk full" ++ nl ++ nl ++ nl ++ nl ++
         "This is an automated message from the Veeam Backup Monitor."
         ++ nl)], Some None) /\
    a = Some (PlainAuth [] "alerts@example.com" "secret" "smtp.example.com").
Proof.
  destruct (dispatch_is_one_delivery demoSendMail
              [ mkJobStatus "JobA" "Failed" "2024-01-01" "2024-01-01"
                            "Disk full" [] ]
              demoConfig _ digest_of_one_failed_job)
    as (a & Hrun & Hauth & _).
  exists a. split.
  - rewrite Hrun. rewrite (Hauth ltac:(discriminate)). vm_compute. reflexivity.
  - apply Hauth. discriminate.
Defined.

(** ** More properties of the library functions *)

Section GoLibFrames.

Lemma Split_app_sep (a b : gostring) (sep : ascii) :
  Split (a ++ sep :: b) sep = Split a sep ++ Split b sep.
Proof.
  induction a as [|c a IH]; cbn [app Split].
  - rewrite Ascii.eqb_refl. reflexivity.
  - rewrite IH. destruct (Ascii.eqb c sep); [reflexivity|].
    destruct (Split a sep) as [|f fs] eqn:E;
      [exfalso; eapply Split_not_nil; eauto|reflexivity].
Qed.

Lemma Split_nosep (s : gostring) (sep : ascii) :
  ~ In sep s -> Split s sep = [s].
Proof.
  intros H. rewrite <- (app_nil_r s) at 1.
  rewrite Split_app_nosep by exact H. cbn. rewrite app_nil_r. reflexivity.
Qed.

Lemma Split_cons_field (f rest : gostring) (sep : ascii) :
  ~ In sep f -> Split (f ++ sep :: rest) sep = f :: Split rest sep.
Proof.
  intros H. rewrite Split_app_sep, Split_nosep by exact H. reflexivity.
Qed.

(** A piece of a split holds no separator, and holds bytes of the string
    only. *)
Lemma Split_piece (s : gostring) (sep : ascii) (f : gostring) :
  In f (Split s sep) -> ~ In sep f /\ (forall x, In x f -> In x s).
Proof.
  revert f; induction s as [|c s IH]; intros f Hin; cbn [Split] in Hin.
  - destruct Hin as [<-|[]]. split; [intros []|intros x []].
  - destruct (Ascii.eqb_spec c sep) as [->|Hne].
    + destruct Hin as [<-|Hin]; [split; [intros []|intros x []]|].
      destruct (IH f Hin) as [H1 H2]. split; [exact H1|].
      intros x Hx. right. apply H2; exact Hx.
    + destruct (Split s sep) as [|g gs] eqn:E;
        [exfalso; eapply Split_not_nil; eauto|].
      destruct Hin as [<-|Hin].
      * destruct (IH g (or_introl eq_refl)) as [H1 H2]. split.
        -- intros [Hc|Hs]; [congruence|exact (H1 Hs)].
        -- intros x [<-|Hx]; [left; reflexivity|right; apply H2; exact Hx].
      * destruct (IH f (or_intror Hin)) as [H1 H2]. split; [exact H1|].
        intros x Hx. right. apply H2; exact Hx.
Qed.

Lemma Split_lines (rows : list gostring) (sep : ascii) :
  Forall (fun row => ~ In sep row) rows ->
  Split (concat (map (fun row => row ++ [sep]) rows)) sep = rows ++ [[]].
Proof.
  induction 1 as [|row rows Hrow _ IH]; [reflexivity|].
  cbn [map concat]. rewrite <- app_assoc. cbn [app].
  rewrite Split_cons_field by exact Hrow. rewrite IH. reflexivity.
Qed.

(** *** Trim *)

Lemma trimLeftByte_suffix (s : gostring) (c : ascii) :
  exists p, s = p ++ trimLeftByte s c.
Proof.
  induction s as [|b s [p IH]]; [exists []; reflexivity|].
  cbn [trimLeftByte]. destruct (Ascii.eqb b c).
  - exists (b :: p). cbn [app]. f_equal. exact IH.
  - exists []. reflexivity.
Qed.

Lemma trimLeftByte_head (s : gostring) (c : ascii) (t : gostring) :
  trimLeftByte s c <> c :: t.
Proof.
  induction s as [|b s IH]; cbn [trimLeftByte]; [discriminate|].
  destruct (Ascii.eqb_spec b c) as [->|Hne]; [exact IH|].
  intros H; inversion H; congruence.
Qed.

Lemma trimLeftByte_id (s : gostring) (c : ascii) :
  (forall t, s <> c :: t) -> trimLeftByte s c = s.
Proof.
  destruct s as [|b s]; intros H; [reflexivity|]. cbn [trimLeftByte].
  destruct (Ascii.eqb_spec b c) as [->|Hne]; [|reflexivity].
  exfalso. exact (H s eq_refl).
Qed.

Lemma trimLeftByte_same (s : gostring) (c : ascii) :
  trimLeftByte (c :: s) c = trimLeftByte s c.
Proof. cbn [trimLeftByte]. rewrite Ascii.eqb_refl. reflexivity. Qed.

Lemma Trim_In (s : gostring) (c x : ascii) : In x (Trim s c) -> In x s.
Proof.
  unfold Trim, trimRightByte. intros H.
  destruct (trimLeftByte_suffix (rev (trimLeftByte (rev s) c)) c) as [p Hp].
  assert (H1 : In x (rev (trimLeftByte (rev s) c)))
    by (rewrite Hp; apply in_or_app; right; exact H).
  apply in_rev in H1.
  destruct (trimLeftByte_suffix (rev s) c) as [q Hq].
  apply in_rev. rewrite Hq. apply in_or_app; right; exact H1.
Qed.

(** What [Trim] returns neither begins nor ends with the byte. *)
Lemma Trim_edges (s : gostring) (c : ascii) (t : gostring) :
  Trim s c <> c :: t /\ Trim s c <> t ++ [c].
Proof.
  unfold Trim, trimRightByte. split; [apply trimLeftByte_head|].
  set (u := trimLeftByte (rev s) c).
  destruct (trimLeftByte_suffix (rev u) c) as [p Hp].
  intros H. rewrite H in Hp.
  apply (f_equal (@rev _)) in Hp. rewrite rev_involutive in Hp.
  rewrite app_assoc, rev_app_distr in Hp. cbn [rev app] in Hp.
  unfold u in Hp. exact (trimLeftByte_head _ _ _ Hp).
Qed.

Lemma Trim_quoted (f : gostring) (c : ascii) :
  ~ In c f -> Trim (c :: f ++ [c]) c = f.
Proof.
  intros Hf. unfold Trim, trimRightByte.
  cbn [rev]. rewrite rev_app_distr. cbn [rev app].
  rewrite trimLeftByte_same.
  assert (Hrev : trimLeftByte (rev f ++ [c]) c
                 = match f with [] => [] | _ => rev f ++ [c] end).
  { destruct f as [|a f]; [cbn; rewrite Ascii.eqb_refl; reflexivity|].
    apply trimLeftByte_id. intros t Ht.
    apply Hf. apply in_rev.
    destruct (rev (a :: f)) as [|b r] eqn:Er.
    - apply (f_equal (@length _)) in Er. rewrite length_rev in Er.
      discriminate Er.
    - cbn [app] in Ht. inversion Ht; subst. left; reflexivity. }
  rewrite Hrev. destruct f as [|a f]; [reflexivity|].
  rewrite rev_app_distr, rev_involutive. cbn [rev app].
  rewrite trimLeftByte_same. apply trimLeftByte_id.
  intros t Ht. apply Hf. rewrite Ht. left; reflexivity.
Qed.

(** *** TrimSpace *)

Lemma TrimSpace_In (s : gostring) (x : ascii) : In x (TrimSpace s) -> In x s.
Proof.
  unfold TrimSpace, TrimRightFunc, TrimLeftFunc. intros H.
  assert (Hfirst : forall (l : gostring) k, In x (firstn k l) -> In x l).
  { intros l k Hk. rewrite <- (firstn_skipn k l).
    apply in_or_app; left; exact Hk. }
  assert (Hleft : In x match indexFunc s IsSpace false with
                       | Some i => skipn i s
                       | None => []
                       end).
  { destruct (lastIndexFunc _ IsSpace false) as [j|].
    - destruct (RuneSelf <=? _)%N;
        [destruct (DecodeRuneInString _)|]; eapply Hfirst; exact H.
    - destruct H. }
  destruct (indexFunc s IsSpace false) as [i|]; [|destruct Hleft].
  eapply (In_skipn_le s 0 i); [lia|exact Hleft].
Qed.

Lemma skipn_app_length {A : Type} (l1 l2 : list A) :
  skipn (length l1) (l1 ++ l2) = l2.
Proof. rewrite skipn_app, skipn_all, Nat.sub_diag. reflexivity. Qed.

Lemma firstn_app_length {A : Type} (l1 l2 : list A) :
  firstn (length l1) (l1 ++ l2) = l1.
Proof.
  rewrite firstn_app, firstn_all, Nat.sub_diag. cbn. apply app_nil_r.
Qed.

Lemma indexFunc_loop_frame (lead : gostring) :
  Forall spaceAscii lead ->
  forall (pre rest : gostring) (c : ascii) (fuel : nat),
    nonSpaceAscii c -> length lead < fuel ->
    indexFunc_loop fuel (pre ++ lead ++ c :: rest) IsSpace false (length pre)
    = Some (length pre + length lead).
Proof.
  induction 1 as [|a lead [Ha Hsp] _ IH]; intros pre rest c fuel [Hc Hns] Hfuel;
    (destruct fuel as [|fuel]; [simpl in Hfuel; lia|]);
    cbn [indexFunc_loop].
  - cbn [app].
    destruct (Nat.leb_spec (length (pre ++ c :: rest)) (length pre)) as [H|_];
      [rewrite length_app in H; simpl in H; lia|].
    rewrite skipn_app_length, DecodeRuneInString_ascii by exact Hc.
    rewrite Hns. cbn [Bool.eqb length]. f_equal. lia.
  - destruct (Nat.leb_spec (length (pre ++ (a :: lead) ++ c :: rest))
                (length pre)) as [H|_];
      [rewrite length_app in H; simpl in H; lia|].
    rewrite skipn_app_length. cbn [app].
    rewrite DecodeRuneInString_ascii by exact Ha.
    rewrite Hsp. cbn [Bool.eqb].
    specialize (IH (pre ++ [a]) rest c fuel (conj Hc Hns)).
    rewrite <- app_assoc, length_app in IH. cbn [app length] in IH.
    rewrite IH by (simpl in Hfuel; lia). f_equal. cbn [length]. lia.
Qed.

Lemma DecodeLastRuneInString_ascii (l : gostring) (c : ascii) :
  (byteN c < 0x80)%N -> DecodeLastRuneInString (l ++ [c]) = (byteN c, 1).
Proof.
  intros Hc. unfold DecodeLastRuneInString.
  rewrite length_app. cbn [length].
  destruct (Nat.eqb_spec (length l + 1) 0) as [H|_]; [lia|].
  replace (length l + 1 - 1) with (length l) by lia.
  unfold byteAt. rewrite app_nth2, Nat.sub_diag by lia. cbn [nth].
  destruct (N.ltb_spec (byteN c) RuneSelf) as [_|H];
    [reflexivity|unfold RuneSelf in H; lia].
Qed.

Lemma lastIndexFunc_loop_frame (trail : gostring) :
  Forall spaceAscii trail ->
  forall (m post : gostring) (c : ascii) (fuel : nat),
    nonSpaceAscii c -> length trail < fuel ->
    lastIndexFunc_loop fuel ((m ++ [c]) ++ trail ++ post) IsSpace false
      (length (m ++ [c]) + length trail)
    = Some (length m).
Proof.
  induction trail as [|a trail IH] using rev_ind;
    intros Hall m post c fuel [Hc Hns] Hfuel;
    (destruct fuel as [|fuel]; [lia|]); cbn [lastIndexFunc_loop].
  - cbn [app length]. rewrite Nat.add_0_r.
    destruct (Nat.eqb_spec (length (m ++ [c])) 0) as [H|_];
      [rewrite length_app in H; simpl in H; lia|].
    rewrite firstn_app_length, DecodeLastRuneInString_ascii by exact Hc.
    rewrite Hns. cbn [Bool.eqb]. f_equal.
    rewrite length_app. simpl. lia.
  - apply Forall_app in Hall. destruct Hall as [Hall Ha].
    inversion Ha as [|? ? [Ha1 Ha2] _]; subst.
    rewrite length_app in Hfuel. cbn [length] in Hfuel.
    destruct (Nat.eqb_spec (length (m ++ [c]) + length (trail ++ [a])) 0)
      as [H|_]; [rewrite !length_app in H; simpl in H; lia|].
    assert (Hcut : firstn (length (m ++ [c]) + length (trail ++ [a]))
                     ((m ++ [c]) ++ (trail ++ [a]) ++ post)
                   = ((m ++ [c]) ++ trail) ++ [a]).
    { rewrite <- (length_app (m ++ [c]) (trail ++ [a])).
      rewrite (app_assoc (m ++ [c]) (trail ++ [a]) post).
      rewrite firstn_app_length, !app_assoc. reflexivity. }
    rewrite Hcut, DecodeLastRuneInString_ascii by exact Ha1.
    rewrite Ha2. cbn [Bool.eqb].
    replace (length (m ++ [c]) + length (trail ++ [a]) - 1)
      with (length (m ++ [c]) + length trail)
      by (rewrite (length_app trail); simpl; lia).
    rewrite <- (app_assoc trail [a] post).
    apply IH; [exact Hall|split; assumption|lia].
Qed.

(** [TrimSpace] removes the ASCII white space around a string whose
    first and last bytes are ASCII and not white space, and nothing else. *)
Lemma TrimSpace_frame (lead trail m : gostring) (a c : ascii) (t : gostring) :
  Forall spaceAscii lead -> Forall spaceAscii trail ->
  nonSpaceAscii a -> nonSpaceAscii c ->
  m ++ [c] = a :: t ->
  TrimSpace (lead ++ (m ++ [c]) ++ trail) = m ++ [c].
Proof.
  intros Hlead Htrail Ha Hc Hcore.
  unfold TrimSpace.
  assert (Hleft : TrimLeftFunc (lead ++ (m ++ [c]) ++ trail) IsSpace
                  = (m ++ [c]) ++ trail).
  { unfold TrimLeftFunc, indexFunc. rewrite Hcore. cbn [app].
    rewrite (indexFunc_loop_frame lead Hlead [] (t ++ trail) a _ Ha)
      by (rewrite length_app; simpl; lia).
    cbn [length Nat.add]. apply skipn_app_length. }
  rewrite Hleft.
  assert (Hright : lastIndexFunc ((m ++ [c]) ++ trail) IsSpace false
                   = Some (length m)).
  { unfold lastIndexFunc.
    pose proof (lastIndexFunc_loop_frame trail Htrail m [] c
                  (S (length ((m ++ [c]) ++ trail))) Hc) as H.
    rewrite app_nil_r in H.
    rewrite <- (length_app (m ++ [c]) trail) in H.
    apply H. rewrite length_app. lia. }
  unfold TrimRightFunc. rewrite Hright. unfold byteAt.
  assert (Hb : nth (length m) ((m ++ [c]) ++ trail) zero = c)
    by (rewrite <- app_assoc, app_nth2, Nat.sub_diag by lia; reflexivity).
  rewrite Hb. destruct Hc as [Hc _].
  destruct (N.leb_spec RuneSelf (byteN c)) as [H|_];
    [unfold RuneSelf in H; lia|].
  replace (length m + 1) with (length (m ++ [c]))
    by (rewrite length_app; simpl; lia).
  apply firstn_app_length.
Qed.

End GoLibFrames.

(** ** More properties of the parser *)

Section ParserRoundTrip.

Lemma spaceAscii_CR : spaceAscii "013"%char.
Proof. split; reflexivity. Qed.

Lemma nonSpaceAscii_quote : nonSpaceAscii quote.
Proof. split; reflexivity. Qed.

Lemma quoted_no_comma (f : gostring) : ~ In comma f -> ~ In comma (quoted f).
Proof.
  intros Hf [H|H]; [discriminate H|].
  apply in_app_or in H. destruct H as [H|[H|[]]];
    [exact (Hf H)|discriminate H].
Qed.

Lemma quoted_no_newline (f : gostring) :
  ~ In newline f -> ~ In newline (quoted f).
Proof.
  intros Hf [H|H]; [discriminate H|].
  apply in_app_or in H. destruct H as [H|[H|[]]];
    [exact (Hf H)|discriminate H].
Qed.

Lemma quoted_end (x d : gostring) :
  x ++ quoted d = (x ++ quote :: d) ++ [quote].
Proof. unfold quoted. rewrite <- app_assoc. reflexivity. Qed.

Lemma Split_csvRow5 (job : JobStatus) :
  plainJob job ->
  Split (csvRow5 job) comma =
  [quoted (Name job); quoted (Status job); quoted (StartTime job);
   quoted (EndTime job); quoted (Description job)].
Proof.
  intros (HN & HS & HST & HET & HD & _). unfold csvRow5.
  change (list_ascii_of_string ",") with [comma]. cbn [app].
  rewrite !Split_cons_field, Split_nosep;
    try reflexivity; apply quoted_no_comma;
    [apply HD|apply HET|apply HST|apply HS|apply HN].
Qed.

Lemma Split_csvRow6 (job : JobStatus) :
  plainJob job ->
  Split (csvRow6 job) comma =
  [quoted (Name job); quoted (Status job); quoted (StartTime job);
   quoted (EndTime job); quoted (Description job); quoted (Duration job)].
Proof.
  intros (HN & HS & HST & HET & HD & HDu). unfold csvRow6, csvRow5.
  rewrite <- !app_assoc.
  change (list_ascii_of_string ",") with [comma]. cbn [app].
  rewrite !Split_cons_field, Split_nosep;
    try reflexivity; apply quoted_no_comma;
    [apply HDu|apply HD|apply HET|apply HST|apply HS|apply HN].
Qed.

Lemma csvRow5_no_newline (job : JobStatus) :
  plainJob job -> ~ In newline (csvRow5 job).
Proof.
  intros (HN & HS & HST & HET & HD & _) H. unfold csvRow5 in H.
  repeat (apply in_app_or in H; destruct H as [H|H]);
    try (revert H; apply quoted_no_newline;
         first [apply HN|apply HS|apply HST|apply HET|apply HD]);
    destruct H as [H|[]]; discriminate H.
Qed.

Lemma csvRow6_no_newline (job : JobStatus) :
  plainJob job -> ~ In newline (csvRow6 job).
Proof.
  intros Hjob H. unfold csvRow6 in H.
  apply in_app_or in H. destruct H as [H|H];
    [exact (csvRow5_no_newline job Hjob H)|].
  apply in_app_or in H. destruct H as [H|H].
  - destruct H as [H|[]]; discriminate H.
  - revert H. apply quoted_no_newline. apply Hjob.
Qed.

Lemma csvRow5_frame (job : JobStatus) :
  exists m t, csvRow5 job = m ++ [quote] /\ csvRow5 job = quote :: t.
Proof.
  unfold csvRow5. eexists. eexists. split.
  - rewrite !app_assoc. apply quoted_end.
  - reflexivity.
Qed.

Lemma csvRow6_frame (job : JobStatus) :
  exists m t, csvRow6 job = m ++ [quote] /\ csvRow6 job = quote :: t.
Proof.
  unfold csvRow6, csvRow5. eexists. eexists. split.
  - rewrite !app_assoc. apply quoted_end.
  - rewrite <- !app_assoc. reflexivity.
Qed.

(** A row that begins and ends with a quote, followed by a carriage
    return: the line that the parser meets for a row ended by CR LF. *)
Lemma TrimSpace_row_CR (row m t : gostring) :
  row = m ++ [quote] -> row = quote :: t ->
  TrimSpace (row ++ ["013"%char]) = row.
Proof.
  intros Hm Ht. rewrite Hm.
  apply (TrimSpace_frame [] ["013"%char] m quote quote t).
  - constructor.
  - repeat constructor; reflexivity.
  - exact nonSpaceAscii_quote.
  - exact nonSpaceAscii_quote.
  - rewrite <- Hm. exact Ht.
Qed.

Lemma plainField_quote (f : gostring) : plainField f -> ~ In quote f.
Proof. intros H; apply H. Qed.

Lemma jobOfRow_csvRow5 (job : JobStatus) :
  plainJob job -> Duration job = [] ->
  fieldCount (csvRow5 job ++ ["013"%char]) = 5 /\
  jobOfRow (csvRow5 job ++ ["013"%char]) = job.
Proof.
  intros Hjob Hdur.
  destruct (csvRow5_frame job) as (m & t & Hm & Ht).
  pose proof (TrimSpace_row_CR _ _ _ Hm Ht) as Htrim.
  assert (Hcount : fieldCount (csvRow5 job ++ ["013"%char]) = 5).
  { unfold fieldCount, comma. rewrite <- Split_TrimSpace_length, Htrim.
    fold comma. rewrite Split_csvRow5 by exact Hjob. reflexivity. }
  split; [exact Hcount|].
  unfold jobOfRow, field. rewrite Hcount, Htrim, Split_csvRow5 by exact Hjob.
  cbn [nth Nat.leb]. unfold quoted.
  destruct Hjob as (HN & HS & HST & HET & HD & _).
  rewrite !Trim_quoted by (apply plainField_quote; assumption).
  destruct job; cbn in *; subst; reflexivity.
Qed.

Lemma jobOfRow_csvRow6 (job : JobStatus) :
  plainJob job ->
  fieldCount (csvRow6 job ++ ["013"%char]) = 6 /\
  jobOfRow (csvRow6 job ++ ["013"%char]) = job.
Proof.
  intros Hjob.
  destruct (csvRow6_frame job) as (m & t & Hm & Ht).
  pose proof (TrimSpace_row_CR _ _ _ Hm Ht) as Htrim.
  assert (Hcount : fieldCount (csvRow6 job ++ ["013"%char]) = 6).
  { unfold fieldCount, comma. rewrite <- Split_TrimSpace_length, Htrim.
    fold comma. rewrite Split_csvRow6 by exact Hjob. reflexivity. }
  split; [exact Hcount|].
  unfold jobOfRow, field. rewrite Hcount, Htrim, Split_csvRow6 by exact Hjob.
  cbn [nth Nat.leb]. unfold quoted.
  destruct Hjob as (HN & HS & HST & HET & HD & HDu).
  rewrite !Trim_quoted by (apply plainField_quote; assumption).
  destruct job; reflexivity.
Qed.

(** The lines of a CSV text. *)
Lemma dataRows_csvOutput (header : gostring) (rows : list gostring) :
  ~ In newline header -> Forall (fun row => ~ In newline row) rows ->
  dataRows (csvOutput header rows)
  = map (fun row => row ++ ["013"%char]) rows ++ [[]].
Proof.
  intros Hh Hrows. unfold dataRows, csvOutput, crlf.
  assert (Hshape :
            header ++ ["013"%char; "010"%char]
              ++ concat (map (fun row => row ++ ["013"%char; "010"%char]) rows)
            = (header ++ ["013"%char]) ++ newline
                :: concat (map (fun row => row ++ [newline])
                             (map (fun row => row ++ ["013"%char]) rows))).
  { rewrite <- app_assoc. cbn [app]. do 3 f_equal.
    rewrite map_map. f_equal. apply map_ext. intros row.
    rewrite <- app_assoc. reflexivity. }
  rewrite Hshape, Split_cons_field, Split_lines.
  - reflexivity.
  - rewrite Forall_map. eapply Forall_impl; [|exact Hrows].
    intros row Hrow H. apply in_app_or in H.
    destruct H as [H|[H|[]]]; [exact (Hrow H)|discriminate H].
  - intros H. apply in_app_or in H.
    destruct H as [H|[H|[]]]; [exact (Hh H)|discriminate H].
Qed.

Lemma parse_csv_rows (header status : gostring) (rows : list gostring)
    (jobs : list JobStatus) :
  ~ In newline header -> Forall (fun row => ~ In newline row) rows ->
  Forall (fun row => 5 <= fieldCount (row ++ ["013"%char])) rows ->
  map (fun row => jobOfRow (row ++ ["013"%char])) rows = jobs ->
  fst (parseJobStatusOutput (csvOutput header rows) status) = jobs.
Proof.
  intros Hh Hnl Hcount Hjobs.
  rewrite parseJobStatusOutput_rows, dataRows_csvOutput by assumption.
  cbn [fst]. rewrite filter_app. cbn [filter].
  change (5 <=? fieldCount []) with false. rewrite app_nil_r.
  rewrite filter_all, map_map; [exact Hjobs|].
  rewrite Forall_map. eapply Forall_impl; [|exact Hcount].
  intros row Hrow. apply Nat.leb_le. exact Hrow.
Qed.

End ParserRoundTrip.

Section ParserExtras.

Ltac plain_bytes :=
  repeat split; cbn; intros H;
  repeat (destruct H as [H|H]; [discriminate H|]); exact H.

(** X1: the parser reads back the CSV text of a status query: a header
    row and one five-column row of quoted fields for each job, every row
    ended by CR LF, give the jobs again, in order, with an empty duration,
    when no field holds a comma, a line feed or a double quote. *)
Theorem parse_csv_five_columns (header status : gostring)
    (jobs : list JobStatus) :
  ~ In newline header ->
  Forall (fun job => plainJob job /\ Duration job = []) jobs ->
  fst (parseJobStatusOutput (csvOutput header (map csvRow5 jobs)) status)
  = jobs.
Proof.
  intros Hh Hjobs. apply parse_csv_rows; [exact Hh| | |].
  - rewrite Forall_map. eapply Forall_impl; [|exact Hjobs].
    intros job [Hjob _]. apply csvRow5_no_newline; exact Hjob.
  - rewrite Forall_map. eapply Forall_impl; [|exact Hjobs].
    intros job [Hjob Hd].
    rewrite (proj1 (jobOfRow_csvRow5 job Hjob Hd)). lia.
  - rewrite map_map. rewrite <- (map_id jobs) at 2.
    apply map_ext_Forall. eapply Forall_impl; [|exact Hjobs].
    intros job [Hjob Hd]. apply jobOfRow_csvRow5; assumption.
Qed.

Lemma parse_csv_five_columns_witness :
  fst (parseJobStatusOutput
         (csvOutput "Name,LastResult,LastStart,LastEnd,Description"
            (map csvRow5
               [ mkJobStatus "JobA" "Failed" "2024-01-01" "2024-01-02"
                             "Disk full" [];
                 mkJobStatus "Job B" "Failed" "2024-01-03" "2024-01-04"
                             [] [] ]))
         "Failed")
  = [ mkJobStatus "JobA" "Failed" "2024-01-01" "2024-01-02" "Disk full" [];
      mkJobStatus "Job B" "Failed" "2024-01-03" "2024-01-04" [] [] ].
Proof.
  apply parse_csv_five_columns.
  - cbn; intros H;
      repeat (destruct H as [H|H]; [discriminate H|]); exact H.
  - repeat constructor; plain_bytes.
Defined.

(** X2: the parser reads back the CSV text of the long-running query:
    six-column rows give the jobs again with their duration. *)
Theorem parse_csv_six_columns (header status : gostring)
    (jobs : list JobStatus) :
  ~ In newline header -> Forall plainJob jobs ->
  fst (parseJobStatusOutput (csvOutput header (map csvRow6 jobs)) status)
  = jobs.
Proof.
  intros Hh Hjobs. apply parse_csv_rows; [exact Hh| | |].
  - rewrite Forall_map. eapply Forall_impl; [|exact Hjobs].
    intros job Hjob. apply csvRow6_no_newline; exact Hjob.
  - rewrite Forall_map. eapply Forall_impl; [|exact Hjobs].
    intros job Hjob. rewrite (proj1 (jobOfRow_csvRow6 job Hjob)). lia.
  - rewrite map_map. rewrite <- (map_id jobs) at 2.
    apply map_ext_Forall. eapply Forall_impl; [|exact Hjobs].
    intros job Hjob. apply jobOfRow_csvRow6; assumption.
Qed.

Lemma parse_csv_six_columns_witness :
  fst (parseJobStatusOutput
         (csvOutput "Name,Status,StartTime,EndTime,Description,Duration"
            (map csvRow6
               [ mkJobStatus "JobB" "Running" "2024-01-01 08:00" "N/A"
                             "Currently running" "130.52" ]))
         "Running")
  = [ mkJobStatus "JobB" "Running" "2024-01-01 08:00" "N/A"
                  "Currently running" "130.52" ].
Proof.
  apply parse_csv_six_columns.
  - cbn; intros H;
      repeat (destruct H as [H|H]; [discriminate H|]); exact H.
  - repeat constructor; plain_bytes.
Defined.

Lemma field_clean (output row : gostring) (i : nat) :
  In row (Split output newline) ->
  ~ In comma (field row i) /\ ~ In newline (field row i) /\
  (forall t, field row i <> quote :: t) /\
  (forall t, field row i <> t ++ [quote]).
Proof.
  intros Hrow. unfold field.
  set (piece := nth i (Split (TrimSpace row) comma) []).
  assert (Hpiece : ~ In comma piece /\ forall x, In x piece -> In x row).
  { destruct (nth_in_or_default i (Split (TrimSpace row) comma) [])
      as [Hin|Hdef].
    - fold piece in Hin.
      destruct (Split_piece _ _ _ Hin) as [H1 H2]. split; [exact H1|].
      intros x Hx. apply TrimSpace_In, H2, Hx.
    - fold piece in Hdef. rewrite Hdef. split; [intros []|intros x []]. }
  destruct Hpiece as [Hc Hsub].
  destruct (Split_piece _ _ _ Hrow) as [Hnl _].
  repeat split.
  - intros H. apply Hc. eapply Trim_In; exact H.
  - intros H. apply Hnl, Hsub. eapply Trim_In; exact H.
  - intros t. apply Trim_edges.
  - intros t. apply Trim_edges.
Qed.

(** X3: no field of a record that the parser returns holds a comma or a
    line feed, and none begins or ends with a double quote. *)
Theorem parsed_fields_are_clean (output status : gostring)
    (job : JobStatus) (f : gostring) :
  In job (fst (parseJobStatusOutput output status)) ->
  In f (fieldsOf job) ->
  ~ In comma f /\ ~ In newline f /\
  (forall t, f <> quote :: t) /\ (forall t, f <> t ++ [quote]).
Proof.
  rewrite parseJobStatusOutput_rows. cbn [fst]. intros Hjob Hf.
  apply in_map_iff in Hjob. destruct Hjob as (row & <- & Hrow).
  apply filter_In in Hrow. destruct Hrow as [Hrow _].
  apply (In_skipn_le _ 0 1) in Hrow; [|lia]. cbn [skipn] in Hrow.
  assert (Hnil : ~ In comma [] /\ ~ In newline [] /\
                 (forall t, [] <> quote :: t) /\
                 (forall t, [] <> t ++ [quote])).
  { split; [intros []|]. split; [intros []|].
    split; intros t; [discriminate|destruct t; discriminate]. }
  cbn [fieldsOf jobOfRow Name Status StartTime EndTime Description Duration]
    in Hf.
  destruct Hf as [<-|[<-|[<-|[<-|[<-|[<-|[]]]]]]];
    try (eapply field_clean; exact Hrow).
  change (Duration (jobOfRow row))
    with (if 6 <=? fieldCount row then field row 5 else []).
  destruct (6 <=? fieldCount row);
    [eapply field_clean; exact Hrow|exact Hnil].
Qed.

Lemma parsed_fields_are_clean_witness :
  ~ In comma (list_ascii_of_string "Backup") /\
  ~ In newline (list_ascii_of_string "Backup") /\
  (forall t, list_ascii_of_string "Backup" <> quote :: t) /\
  (forall t, list_ascii_of_string "Backup" <> t ++ [quote]).
Proof.
  apply (parsed_fields_are_clean
           ("Name,LastResult,LastStart,LastEnd,Description" ++ nl ++
            quoted "Backup, nightly" ++ "," ++ quoted "Failed" ++ "," ++
            quoted "2024-01-01" ++ "," ++ quoted "2024-01-02" ++ "," ++
            quoted "Disk full")
           "Failed"
           (mkJobStatus "Backup" " nightly" "Failed" "2024-01-01"
                        "2024-01-02" "Disk full")).
  - vm_compute. left; reflexivity.
  - left; reflexivity.
Defined.

(** X4: the parser returns at most one record for each line feed of its
    input. *)
Theorem parsed_jobs_bounded_by_line_feeds (output status : gostring) :
  length (fst (parseJobStatusOutput output status))
  <= count_occ ascii_dec output newline.
Proof.
  rewrite parseJobStatusOutput_rows. cbn [fst].
  rewrite length_map. unfold dataRows.
  pose proof (Split_length output newline) as Hlen.
  pose proof (filter_length_le (fun row => 5 <=? fieldCount row)
                (skipn 1 (Split output newline))) as Hf.
  rewrite length_skipn in Hf. lia.
Qed.

(** X5: the records of the rows before a line feed do not depend on the
    text after it, and the rows after it are parsed whatever stands
    before: the result for [o1 ++ LF ++ o2] is the result for [o1]
    followed by the records of the lines of [o2]. *)
Theorem parse_appended_rows (o1 o2 status : gostring) :
  fst (parseJobStatusOutput (o1 ++ newline :: o2) status) =
  fst (parseJobStatusOutput o1 status)
  ++ map jobOfRow
       (filter (fun row => 5 <=? fieldCount row) (Split o2 newline)).
Proof.
  rewrite !parseJobStatusOutput_rows. cbn [fst]. unfold dataRows.
  rewrite Split_app_sep.
  destruct (Split o1 newline) as [|h rows] eqn:E;
    [exfalso; eapply Split_not_nil; eauto|].
  cbn [app skipn]. rewrite filter_app, map_app. reflexivity.
Qed.

(** X6: ASCII white space before and after a line changes nothing to what
    the parser makes of it, when the line begins and ends with ASCII bytes
    that are not white space. *)
Theorem parseLine_ignores_ascii_padding (jobs : list JobStatus)
    (lead trail m : gostring) (a c : ascii) (t : gostring) :
  Forall spaceAscii lead -> Forall spaceAscii trail ->
  nonSpaceAscii a -> nonSpaceAscii c -> m ++ [c] = a :: t ->
  parseLine jobs (lead ++ (m ++ [c]) ++ trail) = parseLine jobs (m ++ [c]).
Proof.
  intros Hlead Htrail Ha Hc Hcore. unfold parseLine.
  rewrite (TrimSpace_frame lead trail m a c t) by assumption.
  pose proof (TrimSpace_frame [] [] m a c t (Forall_nil _) (Forall_nil _)
                Ha Hc Hcore) as H0.
  cbn [app] in H0. rewrite app_nil_r in H0. rewrite H0. reflexivity.
Qed.

Lemma parseLine_ignores_ascii_padding_witness :
  parseLine [] ("  " ++ nl_tab ++ ("a,b,c,d," ++ ["e"%char]) ++ " " ++ crlf)
  = parseLine [] ("a,b,c,d," ++ ["e"%char]).
Proof.
  apply (parseLine_ignores_ascii_padding [] ("  " ++ nl_tab) (" " ++ crlf)
           "a,b,c,d," "a"%char "e"%char ",b,c,d,e").
  - repeat constructor.
  - repeat constructor.
  - split; reflexivity.
  - split; reflexivity.
  - reflexivity.
Defined.

End ParserExtras.

(** ** More properties of the digest *)

Section DigestExtras.

Lemma durationText_None_iff (job : JobStatus) :
  durationText job = None <->
  Duration job <> [] /\ ~ In period (Duration job).
Proof.
  split.
  - intros H. destruct (Duration job) as [|c d] eqn:Ed.
    + rewrite durationText_empty in H by exact Ed. discriminate H.
    + split; [discriminate|]. intros Hin.
      rewrite durationText_period in H; rewrite ?Ed; try discriminate.
      exact Hin.
  - intros [Hne Hin]. apply durationText_no_period; assumption.
Qed.

Lemma runningBlock_None_iff (job : JobStatus) :
  runningBlock job = None <->
  Duration job <> [] /\ ~ In period (Duration job).
Proof.
  rewrite <- durationText_None_iff. unfold runningBlock.
  destruct (durationText job); split; congruence.
Qed.

Lemma runningBlocks_Some_iff (group : list JobStatus) :
  runningBlocks group <> None <->
  Forall (fun job => Duration job = [] \/ In period (Duration job)) group.
Proof.
  induction group as [|job group IH]; cbn [runningBlocks].
  - split; [constructor|discriminate].
  - destruct (runningBlock job) as [block|] eqn:Eb.
    + assert (Hjob : Duration job = [] \/ In period (Duration job)).
      { destruct (Duration job) as [|c d] eqn:Ed; [left; reflexivity|].
        destruct (in_dec ascii_dec period (c :: d)) as [Hin|Hin];
          [right; exact Hin|].
        assert (Hnone : runningBlock job = None)
          by (apply runningBlock_None_iff; rewrite Ed; split;
              [discriminate|exact Hin]).
        congruence. }
      destruct (runningBlocks group) as [blocks|].
      * split; [constructor; [exact Hjob|apply IH; discriminate]
               |discriminate].
      * split; [congruence|].
        intros H. inversion H; subst. apply IH. assumption.
    + apply runningBlock_None_iff in Eb. destruct Eb as [Hne Hin].
      split; [congruence|]. intros H. inversion H as [|? ? [H1|H1] _]; subst;
        contradiction.
Qed.

Lemma runningSection_Some_iff (group : list JobStatus) :
  runningSection group <> None <-> runningBlocks group <> None.
Proof.
  unfold runningSection. destruct group as [|job group];
    [cbn; split; discriminate|].
  destruct (runningBlocks (job :: group)); split; congruence.
Qed.

(** X7: the body of the digest can be built, that is sendEmailAlert does
    not panic, exactly when every record with status Running has a
    duration that is empty or holds a period. *)
Theorem digest_builds_iff_renderable (jobs : list JobStatus) :
  digestBody jobs <> None <-> Forall renderable jobs.
Proof.
  rewrite digestBody_sections.
  assert (H : match
                runningSection (filter (hasStatus "Running") jobs)
              with
              | Some running =>
                  Some (reportHeader
                          ++ plainSection "FAILED JOBS" "--------------"
                               (filter (hasStatus "Failed") jobs)
                          ++ plainSection "WARNING JOBS" "----------------"
                               (filter (hasStatus "Warning") jobs)
                          ++ running ++ reportFooter)
              | None => None
              end <> None
              <-> runningSection (filter (hasStatus "Running") jobs)
                  <> None)
    by (destruct (runningSection _); split; congruence).
  rewrite H, runningSection_Some_iff, runningBlocks_Some_iff.
  rewrite !Forall_forall. unfold renderable. split.
  - intros Hall job Hin Hst. apply Hall. apply filter_In. auto.
  - intros Hall job Hin. apply filter_In in Hin. destruct Hin as [Hin Hst].
    apply Hall; assumption.
Qed.

Lemma digest_builds_iff_renderable_witness :
  digestBody [ mkJobStatus "JobA" "Failed" "s" "e" "d" "130";
               mkJobStatus "JobB" "Running" "s" "N/A" "d" "45.231";
               mkJobStatus "JobC" "Running" "s" "N/A" "d" [] ] <> None.
Proof.
  apply digest_builds_iff_renderable.
  constructor; [|constructor; [|constructor; [|constructor]]]; intros Hst.
  - discriminate Hst.
  - right. cbn. auto.
  - left. reflexivity.
Defined.

Lemma filter_known_status (status : gostring) (jobs : list JobStatus) :
  knownStatus (mkJobStatus [] status [] [] [] []) = true ->
  filter (hasStatus status) (filter knownStatus jobs)
  = filter (hasStatus status) jobs.
Proof.
  intros Hknown. induction jobs as [|job jobs IH]; [reflexivity|].
  cbn [filter]. destruct (knownStatus job) eqn:Ek; cbn [filter];
    rewrite IH; [reflexivity|].
  destruct (hasStatus status job) eqn:Es; [|reflexivity].
  exfalso. unfold hasStatus in Es. apply eqs_true_iff in Es.
  unfold knownStatus, hasStatus in Ek, Hknown. cbn [Status] in Hknown.
  rewrite Es in Ek. congruence.
Qed.

Lemma filter_filter_same {A : Type} (f : A -> bool) (l : list A) :
  filter f (filter f l) = filter f l.
Proof.
  induction l as [|x l IH]; [reflexivity|]. cbn [filter].
  destruct (f x) eqn:E; [cbn [filter]; rewrite E, IH; reflexivity|exact IH].
Qed.

Lemma filter_filter_disjoint {A : Type} (f g : A -> bool) (l : list A) :
  (forall x, g x = true -> f x = false) -> filter f (filter g l) = [].
Proof.
  intros H. induction l as [|x l IH]; [reflexivity|]. cbn [filter].
  destruct (g x) eqn:E; [cbn [filter]; rewrite (H x E); exact IH|exact IH].
Qed.

Lemma status_disjoint (s1 s2 : gostring) (job : JobStatus) :
  s1 <> s2 -> hasStatus s1 job = true -> hasStatus s2 job = false.
Proof.
  unfold hasStatus. intros Hne H1. apply eqs_true_iff in H1.
  apply eqs_false_iff. congruence.
Qed.

Lemma regrouped_groups (jobs : list JobStatus) :
  let regrouped :=
    filter (hasStatus "Failed") jobs ++ filter (hasStatus "Warning") jobs
      ++ filter (hasStatus "Running") jobs in
  filter (hasStatus "Failed") regrouped = filter (hasStatus "Failed") jobs /\
  filter (hasStatus "Warning") regrouped
    = filter (hasStatus "Warning") jobs /\
  filter (hasStatus "Running") regrouped
    = filter (hasStatus "Running") jobs.
Proof.
  cbv zeta. rewrite !filter_app, !filter_filter_same.
  rewrite !filter_filter_disjoint, ?app_nil_r;
    try (intros job; apply status_disjoint; discriminate).
  repeat split.
Qed.

(** X8: the body is made from the three groups only: it is the same for
    the input without its records of another status, and for the input
    sorted into Failed, Warning and Running records. *)
Theorem digest_depends_on_groups_only (jobs : list JobStatus) :
  digestBody (filter knownStatus jobs) = digestBody jobs /\
  digestBody (filter (hasStatus "Failed") jobs
                ++ filter (hasStatus "Warning") jobs
                ++ filter (hasStatus "Running") jobs) = digestBody jobs.
Proof.
  split.
  - rewrite !digestBody_sections, !filter_known_status by reflexivity.
    reflexivity.
  - destruct (regrouped_groups jobs) as (HF & HW & HR).
    rewrite (digestBody_sections (_ ++ _)), HF, HW, HR.
    rewrite digestBody_sections. reflexivity.
Qed.

End DigestExtras.

(** ** More properties of the configuration *)

Section ConfigExtras.

Variable ReadFile : gostring -> gostring * option error.
Variable Unmarshal : gostring -> Config -> Config * option error.

Lemma repairedConfig_valid (parsed : Config) :
  validConfig (repairedConfig parsed).
Proof.
  destruct parsed as [m a interval srv port from to pw mf mw mr thr].
  unfold validConfig, repairedConfig.
  cbn [CheckIntervalMinutes LongRunningThreshold MonitorFailedJobs
       MonitorWarningJobs MonitorRunningJobs].
  destruct (Z.ltb_spec interval 1), mf, mw, mr;
    cbv [setCheckIntervalMinutes setMonitorFailedJobs
         setLongRunningThreshold negb andb];
    cbn [CheckIntervalMinutes LongRunningThreshold MonitorFailedJobs
         MonitorWarningJobs MonitorRunningJobs];
    destruct (Z.ltb_spec thr 1);
    cbn [CheckIntervalMinutes LongRunningThreshold MonitorFailedJobs
         MonitorWarningJobs MonitorRunningJobs orb];
    repeat split; try reflexivity; lia.
Qed.

Lemma repairedConfig_of_valid (parsed : Config) :
  validConfig parsed -> repairedConfig parsed = parsed.
Proof.
  intros (Hi & Ht & Hm). unfold repairedConfig.
  destruct (Z.ltb_spec (CheckIntervalMinutes parsed) 1) as [H|_]; [lia|].
  destruct (MonitorFailedJobs parsed), (MonitorWarningJobs parsed),
    (MonitorRunningJobs parsed); try discriminate Hm; cbn [negb andb];
    (destruct (Z.ltb_spec (LongRunningThreshold parsed) 1) as [H|_];
       [lia|reflexivity]).
Qed.

Lemma loadConfig_success (filePath data : gostring) (parsed : Config) :
  ReadFile filePath = (data, None) ->
  Unmarshal data zeroConfig = (parsed, None) ->
  result (loadConfig ReadFile Unmarshal filePath)
    = Some (inl (repairedConfig parsed)) /\
  Forall (fun e => isLog e = true)
         (trace (loadConfig ReadFile Unmarshal filePath)) /\
  (validConfig parsed -> trace (loadConfig ReadFile Unmarshal filePath) = []).
Proof.
  intros ERead EParse. unfold loadConfig. rewrite ERead, EParse.
  destruct parsed as [m a interval srv port from to pw mf mw mr thr].
  unfold repairedConfig, validConfig.
  cbn [CheckIntervalMinutes LongRunningThreshold MonitorFailedJobs
       MonitorWarningJobs MonitorRunningJobs].
  destruct (Z.ltb_spec interval 1) as [Hi|Hi];
    destruct (Z.ltb_spec thr 1) as [Ht|Ht];
    destruct mf, mw, mr;
    cbv [bind ret logPrint emit result trace fst snd negb andb orb
         setCheckIntervalMinutes setMonitorFailedJobs
         setLongRunningThreshold];
    cbn [CheckIntervalMinutes LongRunningThreshold MonitorFailedJobs
         MonitorWarningJobs MonitorRunningJobs];
    repeat match goal with
           | |- context [(?x <? 1)%Z] =>
               destruct (Z.ltb_spec x 1); try lia
           end;
    cbv beta iota;
    (split; [reflexivity|]);
    (split; [repeat constructor|]);
    intros (H1 & H2 & H3); try lia; try discriminate H3; reflexivity.
Qed.

(** X12: loadConfig fails exactly when the file cannot be read or its
    text cannot be unmarshalled; it then returns the error of the failing
    step after "error reading config file: " or "error parsing config
    file: " and logs nothing. *)
Theorem loadConfig_failure (filePath : gostring) :
  ((exists e, result (loadConfig ReadFile Unmarshal filePath)
              = Some (inr e)) <->
   (snd (ReadFile filePath) <> None \/
    snd (Unmarshal (fst (ReadFile filePath)) zeroConfig) <> None)) /\
  (forall e,
      result (loadConfig ReadFile Unmarshal filePath) = Some (inr e) ->
      trace (loadConfig ReadFile Unmarshal filePath) = [] /\
      ((exists err, snd (ReadFile filePath) = Some err /\
                    e = "error reading config file: " ++ err) \/
       (exists err, snd (ReadFile filePath) = None /\
                    snd (Unmarshal (fst (ReadFile filePath)) zeroConfig)
                    = Some err /\
                    e = "error parsing config file: " ++ err))).
Proof.
  destruct (ReadFile filePath) as [data [rerr|]] eqn:ERead.
  - unfold loadConfig. rewrite ERead. cbn [fst snd result ret trace].
    split.
    + split; [intros _; left; discriminate|intros _; eexists; reflexivity].
    + intros e He. inversion He; subst. split; [reflexivity|].
      left. eexists. split; reflexivity.
  - destruct (Unmarshal data zeroConfig) as [parsed [perr|]] eqn:EParse.
    + unfold loadConfig. rewrite ERead, EParse.
      cbn [fst snd result ret trace]. rewrite EParse. cbn [snd]. split.
      * split; [intros _; right; discriminate
               |intros _; eexists; reflexivity].
      * intros e He. inversion He; subst. split; [reflexivity|].
        right. eexists. repeat split; reflexivity.
    + destruct (loadConfig_success _ _ _ ERead EParse) as (Hres & _).
      rewrite Hres. cbn [fst snd]. rewrite EParse. cbn [snd]. split.
      * split; [intros [e He]; discriminate He
               |intros [H|H]; exfalso; apply H; reflexivity].
      * intros e He. discriminate He.
Qed.

(** X13: loadConfig changes only the interval, the Failed toggle and the
    threshold: the module name, the server address, the SMTP server and
    port, the sender, the recipients and the password are returned as they
    were unmarshalled (a missing port stays 0). *)
Theorem loadConfig_keeps_other_fields (filePath data : gostring)
    (parsed config : Config) :
  ReadFile filePath = (data, None) ->
  Unmarshal data zeroConfig = (parsed, None) ->
  result (loadConfig ReadFile Unmarshal filePath) = Some (inl config) ->
  VeeamPowerShellModule config = VeeamPowerShellModule parsed /\
  VeeamServerAddress config = VeeamServerAddress parsed /\
  SMTPServer config = SMTPServer parsed /\
  SMTPPort config = SMTPPort parsed /\
  EmailFrom config = EmailFrom parsed /\
  EmailTo config = EmailTo parsed /\
  EmailPassword config = EmailPassword parsed.
Proof.
  intros ERead EParse Hres.
  destruct (loadConfig_success _ _ _ ERead EParse) as (Hres' & _).
  rewrite Hres' in Hres. inversion Hres; subst config. clear.
  unfold repairedConfig.
  repeat match goal with
         | |- context [if ?c then _ else _] => destruct c
         end; repeat split.
Qed.

(** X14: a configuration whose interval and threshold are at least 1 and
    that monitors a category is returned as it was unmarshalled, and
    nothing is logged. *)
Theorem loadConfig_valid_unchanged (filePath data : gostring)
    (parsed : Config) :
  ReadFile filePath = (data, None) ->
  Unmarshal data zeroConfig = (parsed, None) ->
  validConfig parsed ->
  loadConfig ReadFile Unmarshal filePath = ([], Some (inl parsed)).
Proof.
  intros ERead EParse Hvalid.
  destruct (loadConfig_success _ _ _ ERead EParse) as (Hres & _ & Htrace).
  specialize (Htrace Hvalid).
  rewrite repairedConfig_of_valid in Hres by exact Hvalid.
  destruct (loadConfig ReadFile Unmarshal filePath) as [t r].
  cbn [result trace fst snd] in *. subst. reflexivity.
Qed.

End ConfigExtras.

Lemma loadConfig_failure_witness :
  trace (loadConfig missingFile demoUnmarshal "config.json") = [].
Proof.
  refine (proj1 (proj2 (loadConfig_failure missingFile demoUnmarshal
                          "config.json")
                   ("error reading config file: " ++ "no such file") _)).
  reflexivity.
Defined.

Lemma loadConfig_keeps_other_fields_witness :
  SMTPPort (mkConfig "Veeam.Backup.PowerShell" "veeam01" 30
              "smtp.example.com" 0 "alerts@example.com"
              [("admin@example.com" : gostring)] "filesecret"
              false true false 240) = 0%Z.
Proof.
  apply (loadConfig_keeps_other_fields demoReadFile fullUnmarshal
           "config.json" "{}"
           (mkConfig "Veeam.Backup.PowerShell" "veeam01" 30
              "smtp.example.com" 0 "alerts@example.com"
              [("admin@example.com" : gostring)] "filesecret"
              false true false 240));
    reflexivity.
Defined.

Lemma loadConfig_valid_unchanged_witness :
  loadConfig demoReadFile fullUnmarshal "config.json" =
  ([], Some (inl (mkConfig "Veeam.Backup.PowerShell" "veeam01" 30
                    "smtp.example.com" 0 "alerts@example.com"
                    [("admin@example.com" : gostring)] "filesecret"
                    false true false 240))).
Proof.
  apply (loadConfig_valid_unchanged demoReadFile fullUnmarshal
           "config.json" "{}").
  - reflexivity.
  - reflexivity.
  - repeat split; try reflexivity; cbn; lia.
Defined.

(** ** Properties of the start of main *)

Section StartupExtras.

Variable MkdirAll : gostring -> option error.
Variable Today : gostring.
Variable PathSeparator : ascii.
Variable OpenFile : gostring -> option error.
Variable ReadFile : gostring -> gostring * option error.
Variable Unmarshal : gostring -> Config -> Config * option error.

Lemma loadConfig_cases (filePath : gostring) :
  exists t r,
    loadConfig ReadFile Unmarshal filePath = (t, Some r) /\
    Forall (fun e => isLog e = true) t /\
    (forall config, r = inl config -> validConfig config).
Proof.
  destruct (ReadFile filePath) as [data [rerr|]] eqn:ERead.
  - unfold loadConfig. rewrite ERead. eexists. eexists.
    split; [reflexivity|]. split; [constructor|discriminate].
  - destruct (Unmarshal data zeroConfig) as [parsed [perr|]] eqn:EParse.
    + unfold loadConfig. rewrite ERead, EParse. eexists. eexists.
      split; [reflexivity|]. split; [constructor|discriminate].
    + destruct (loadConfig_success _ _ _ _ _ ERead EParse)
        as (Hres & Hlog & _).
      destruct (loadConfig ReadFile Unmarshal filePath) as [t r].
      cbn [result trace fst snd] in *. subst r.
      exists t. eexists. split; [reflexivity|]. split; [exact Hlog|].
      intros config Hc. inversion Hc; subst. apply repairedConfig_valid.
Qed.

Lemma bind_run {A B : Type} (m : M A) (k : A -> M B)
    (t : list Event) (a : A) (t' : list Event) (r : option B) :
  m = (t, Some a) -> k a = (t', r) -> bind m k = (t ++ t', r).
Proof. intros -> Hk. cbn [bind]. rewrite Hk. reflexivity. Qed.

Lemma log_if_error (o : option error) (f : error -> gostring) :
  match o with
  | Some e => logPrint (f e)
  | None => ret tt
  end
  = (match o with Some e => [EvLog (f e)] | None => [] end, Some tt).
Proof. destruct o; reflexivity. Qed.

Lemma default_if_error (r : Config + error) (f g : error -> gostring) :
  match r with
  | inr err => logPrint (f err) ;;; logPrint (g err) ;;; ret defaultConfig
  | inl config => ret config
  end
  = (match r with
     | inr err => [EvLog (f err); EvLog (g err)]
     | inl _ => []
     end,
     Some match r with inl config => config | inr _ => defaultConfig end).
Proof. destruct r; reflexivity. Qed.

Lemma override_step (c : bool) (msg : gostring) (v w : Config) :
  (if negb c then logPrint msg ;;; ret v else ret w)
  = ((if c then [] else [EvLog msg]), Some (if c then w else v)).
Proof. destruct c; reflexivity. Qed.

Lemma warn_step (c : bool) (msg : gostring) :
  (if c then logPrint msg else ret tt)
  = ((if c then [EvLog msg] else []), Some tt).
Proof. destruct c; reflexivity. Qed.

Lemma Forall_isLog_if (c : bool) (msg : gostring) :
  Forall (fun e => isLog e = true) (if c then [] else [EvLog msg]) /\
  Forall (fun e => isLog e = true) (if c then [EvLog msg] else []).
Proof. destruct c; repeat constructor. Qed.

(** The run of [startup], step by step: its trace and its result. *)
Ltac run_startup :=
  eapply bind_run; [apply (log_if_error _ (fun err => _))|];
  eapply bind_run; [eassumption|];
  eapply bind_run; [apply (default_if_error _ (fun err => _) (fun _ => _))|];
  do 5 (eapply bind_run; [apply override_step|]);
  do 2 (eapply bind_run; [apply warn_step|]);
  eapply bind_run; reflexivity.

(** The configuration that the flags are put over: the loaded one, or
    the default one when loading failed. *)
Lemma startup_run (flags : Flags) :
  result (startup MkdirAll Today PathSeparator OpenFile ReadFile Unmarshal
            flags)
  = Some (applyFlags flags
            match result (loadConfig ReadFile Unmarshal (configFile flags))
            with
            | Some (inl config) => config
            | _ => defaultConfig
            end) /\
  Forall (fun e => isLog e = true)
         (trace (startup MkdirAll Today PathSeparator OpenFile ReadFile
                   Unmarshal flags)).
Proof.
  destruct (loadConfig_cases (configFile flags)) as (t & r & Eload & Hlog & _).
  rewrite Eload. cbn [result snd].
  unfold startup.
  destruct (setupLogging MkdirAll Today PathSeparator OpenFile)
    as [logFile lerr].
  match goal with
  | |- result ?m = _ /\ _ =>
      evar (p : M Config); assert (E : m = p) by (subst p; run_startup)
  end.
  rewrite E; subst p. cbn [result trace fst snd]. split.
  - f_equal. destruct r as [[m a i srv port from to pw mf mw mr thr]|err];
      unfold applyFlags, orFlag;
      destruct (eqs (veeamServer flags) []), (eqs (emailFrom flags) []),
        (eqs (emailPassword flags) []), (eqs (emailTo flags) []),
        (eqs (smtpServer flags) []); reflexivity.
  - repeat (apply Forall_app; split);
      first [ exact Hlog
            | apply Forall_isLog_if
            | solve [repeat constructor]
            | solve [destruct lerr; repeat constructor]
            | solve [destruct r; repeat constructor] ].
Qed.


Lemma applyFlags_valid (flags : Flags) (config : Config) :
  validConfig config -> validConfig (applyFlags flags config).
Proof. intros H. exact H. Qed.

Lemma defaultConfig_valid : validConfig defaultConfig.
Proof. repeat split; cbn; lia. Qed.

(** X16: whatever the file and the flags, the loop runs with an interval
    and a threshold of at least 1 and with a category to monitor. *)
Theorem startup_config_valid (flags : Flags) :
  exists config,
    result (startup MkdirAll Today PathSeparator OpenFile ReadFile Unmarshal
              flags) = Some config /\
    validConfig config.
Proof.
  eexists. split; [apply startup_run|].
  apply applyFlags_valid.
  destruct (loadConfig_cases (configFile flags)) as (t & r & Eload & _ & Hv).
  rewrite Eload. cbn [result snd].
  destruct r as [config|err]; [apply Hv; reflexivity|].
  exact defaultConfig_valid.
Qed.

(** X17: the log of the start of main does not tell the password given
    on the command line: two passwords give the same log. *)
Theorem startup_log_hides_password
    (server from password1 password2 to smtp file : gostring) :
  password1 <> [] -> password2 <> [] ->
  trace (startup MkdirAll Today PathSeparator OpenFile ReadFile Unmarshal
           (mkFlags server from password1 to smtp file)) =
  trace (startup MkdirAll Today PathSeparator OpenFile ReadFile Unmarshal
           (mkFlags server from password2 to smtp file)).
Proof.
  intros H1 H2. apply eqs_false_iff in H1, H2.
  destruct (loadConfig_cases file) as (t & r & Eload & _ & _).
  unfold startup. cbn [veeamServer emailFrom emailPassword emailTo
                       smtpServer configFile].
  destruct (setupLogging MkdirAll Today PathSeparator OpenFile)
    as [logFile lerr].
  match goal with
  | |- trace ?m1 = trace ?m2 =>
      evar (p1 : M Config); assert (E1 : m1 = p1) by (subst p1; run_startup);
      evar (p2 : M Config); assert (E2 : m2 = p2) by (subst p2; run_startup)
  end.
  rewrite E1, E2; subst p1 p2. cbn [trace fst]. rewrite H1, H2.
  destruct (match r with inl config => config | inr _ => defaultConfig end)
    as [m a i srv port from0 to0 pw mf mw mr thr].
  destruct (eqs server []), (eqs from []), (eqs to []), (eqs smtp []);
    reflexivity.
Qed.

End StartupExtras.

Lemma startup_log_hides_password_witness :
  trace (startup demoMkdirAll "2024-01-01" "/"%char demoOpenFile
           missingFile demoUnmarshal demoFlags) =
  trace (startup demoMkdirAll "2024-01-01" "/"%char demoOpenFile
           missingFile demoUnmarshal
           (mkFlags "veeam-server.example.com" "alerts@example.com"
                    "another" "admin@example.com" "smtp.example.com"
                    "config.json")).
Proof.
  apply (startup_log_hides_password demoMkdirAll "2024-01-01" "/"%char
           demoOpenFile missingFile demoUnmarshal);
    discriminate.
Defined.

(** The runner script with a missing configuration file. *)
Example startup_with_runner_script :
  result (startup demoMkdirAll "2024-01-01" "/"%char demoOpenFile
            missingFile demoUnmarshal demoFlags) =
  Some (mkConfig "Veeam.Backup.PowerShell" "veeam-server.example.com" 15
                 "smtp.example.com" 25 "alerts@example.com"
                 [("admin@example.com" : gostring)] "yourpassword"
                 true false false 120).
Proof. vm_compute. reflexivity. Qed.

(** ** More properties of the queries and of the poll cycle *)

Section CycleExtras.

Variable CombinedOutput : PSCommand -> gostring * option error.
Variable SendMail :
  gostring -> option Auth -> gostring -> list gostring -> gostring
  -> option error.

(** X9: a poll cycle runs one script for each enabled category and no
    other, in the order Failed, Warning, long-running, whether the
    scripts before it failed or not. *)
Theorem poll_runs_one_script_per_category (config : Config) :
  execCommands (trace (collectProblematicJobs CombinedOutput config)) =
  (if MonitorFailedJobs config
   then [JobsByStatusScript (VeeamPowerShellModule config)
           (VeeamServerAddress config) "Failed"]
   else [])
  ++ (if MonitorWarningJobs config
      then [JobsByStatusScript (VeeamPowerShellModule config)
              (VeeamServerAddress config) "Warning"]
      else [])
  ++ (if MonitorRunningJobs config
      then [LongRunningJobsScript (VeeamPowerShellModule config)
              (VeeamServerAddress config) (LongRunningThreshold config)]
      else []).
Proof.
  unfold collectProblematicJobs, getJobsByStatus, getLongRunningJobs,
    runPowerShell.
  destruct (CombinedOutput
              (JobsByStatusScript (VeeamPowerShellModule config)
                 (VeeamServerAddress config) "Failed")) as [o1 e1].
  destruct (CombinedOutput
              (JobsByStatusScript (VeeamPowerShellModule config)
                 (VeeamServerAddress config) "Warning")) as [o2 e2].
  destruct (CombinedOutput
              (LongRunningJobsScript (VeeamPowerShellModule config)
                 (VeeamServerAddress config) (LongRunningThreshold config)))
    as [o3 e3].
  destruct (MonitorFailedJobs config), (MonitorWarningJobs config),
    (MonitorRunningJobs config), e1, e2, e3;
    cbv [bind ret emit logPrint result trace fst snd];
    rewrite ?parseJobStatusOutput_rows; cbv beta iota;
    reflexivity.
Qed.

Lemma collect_trace_kinds (config : Config) :
  Forall (fun e => isSleep e = false)
         (trace (collectProblematicJobs CombinedOutput config)).
Proof.
  unfold collectProblematicJobs, getJobsByStatus, getLongRunningJobs,
    runPowerShell.
  destruct (CombinedOutput
              (JobsByStatusScript (VeeamPowerShellModule config)
                 (VeeamServerAddress config) "Failed")) as [o1 e1].
  destruct (CombinedOutput
              (JobsByStatusScript (VeeamPowerShellModule config)
                 (VeeamServerAddress config) "Warning")) as [o2 e2].
  destruct (CombinedOutput
              (LongRunningJobsScript (VeeamPowerShellModule config)
                 (VeeamServerAddress config) (LongRunningThreshold config)))
    as [o3 e3].
  destruct (MonitorFailedJobs config), (MonitorWarningJobs config),
    (MonitorRunningJobs config), e1, e2, e3;
    cbv [bind ret emit logPrint result trace fst snd];
    rewrite ?parseJobStatusOutput_rows; cbv beta iota;
    cbn [app]; repeat constructor.
Qed.

(** *** The queries *)

Lemma getJobsByStatus_run (config : Config) (status : gostring) :
  getJobsByStatus CombinedOutput config status =
  ([EvExec (JobsByStatusScript (VeeamPowerShellModule config)
              (VeeamServerAddress config) status)],
   Some match CombinedOutput
                (JobsByStatusScript (VeeamPowerShellModule config)
                   (VeeamServerAddress config) status)
        with
        | (output, None) => (fst (parseJobStatusOutput output status), None)
        | (_, Some err) =>
            ([], Some ("failed to execute PowerShell command for "
                         ++ status ++ " jobs: " ++ err))
        end).
Proof.
  unfold getJobsByStatus, runPowerShell.
  destruct (CombinedOutput _) as [output [err|]];
    cbv [bind ret emit]; rewrite ?parseJobStatusOutput_rows; reflexivity.
Qed.

Lemma getLongRunningJobs_run (config : Config) :
  getLongRunningJobs CombinedOutput config =
  ([EvExec (LongRunningJobsScript (VeeamPowerShellModule config)
              (VeeamServerAddress config) (LongRunningThreshold config))],
   Some match CombinedOutput
                (LongRunningJobsScript (VeeamPowerShellModule config)
                   (VeeamServerAddress config)
                   (LongRunningThreshold config))
        with
        | (output, None) =>
            (map (fun job =>
                    setDescription job
                      (longRunningPrefix config ++ Description job))
                 (fst (parseJobStatusOutput output "Running")), None)
        | (_, Some err) =>
            ([], Some ("failed to execute PowerShell command for long-running jobs: "
                         ++ err))
        end).
Proof.
  unfold getLongRunningJobs, runPowerShell, longRunningPrefix.
  destruct (CombinedOutput _) as [output [err|]];
    cbv [bind ret emit]; rewrite ?parseJobStatusOutput_rows; cbv beta iota;
    cbn [fst app]; [reflexivity|].
  do 3 f_equal. apply map_ext. intros job. rewrite <- !app_assoc.
  reflexivity.
Qed.

(** X10: a query fails exactly when the PowerShell process fails: the
    parser adds no error of its own.  A failed query returns no record;
    a query returns its result after one run of its script. *)
Theorem query_fails_iff_process_fails (config : Config) (status : gostring) :
  (exists jobs err,
      getJobsByStatus CombinedOutput config status =
        ([EvExec (JobsByStatusScript (VeeamPowerShellModule config)
                    (VeeamServerAddress config) status)],
         Some (jobs, err)) /\
      (err <> None <->
       snd (CombinedOutput
              (JobsByStatusScript (VeeamPowerShellModule config)
                 (VeeamServerAddress config) status)) <> None) /\
      (err <> None -> jobs = [])) /\
  (exists jobs err,
      getLongRunningJobs CombinedOutput config =
        ([EvExec (LongRunningJobsScript (VeeamPowerShellModule config)
                    (VeeamServerAddress config)
                    (LongRunningThreshold config))],
         Some (jobs, err)) /\
      (err <> None <->
       snd (CombinedOutput
              (LongRunningJobsScript (VeeamPowerShellModule config)
                 (VeeamServerAddress config)
                 (LongRunningThreshold config))) <> None) /\
      (err <> None -> jobs = [])).
Proof.
  split.
  - rewrite getJobsByStatus_run.
    destruct (CombinedOutput _) as [output [err|]]; cbn [snd];
      eexists; eexists; (split; [reflexivity|]);
      (split;
       [split; intros H; first [discriminate|exact H]
       |intros H; first [reflexivity|exfalso; apply H; reflexivity]]).
  - rewrite getLongRunningJobs_run.
    destruct (CombinedOutput _) as [output [err|]]; cbn [snd];
      eexists; eexists; (split; [reflexivity|]);
      (split;
       [split; intros H; first [discriminate|exact H]
       |intros H; first [reflexivity|exfalso; apply H; reflexivity]]).
Qed.

(** X11: the records of a successful long-running query are the records
    that the parser makes of the output, in order, each with
    "Long-running job (over T minutes): " put before its description, T
    being the threshold of the configuration, and with its other fields
    as parsed. *)
Theorem long_running_descriptions (config : Config)
    (jobs : list JobStatus) :
  result (getLongRunningJobs CombinedOutput config) = Some (jobs, None) ->
  Forall2
    (fun job parsed =>
       Description job = longRunningPrefix config ++ Description parsed /\
       Name job = Name parsed /\ Status job = Status parsed /\
       StartTime job = StartTime parsed /\ EndTime job = EndTime parsed /\
       Duration job = Duration parsed)
    jobs
    (fst (parseJobStatusOutput
            (fst (CombinedOutput
                    (LongRunningJobsScript (VeeamPowerShellModule config)
                       (VeeamServerAddress config)
                       (LongRunningThreshold config))))
            "Running")).
Proof.
  rewrite getLongRunningJobs_run. cbn [result snd].
  destruct (CombinedOutput _) as [output [err|]]; [discriminate|].
  intros H.
  assert (Hjobs : jobs = map (fun job =>
                                setDescription job
                                  (longRunningPrefix config
                                     ++ Description job))
                             (fst (parseJobStatusOutput output "Running")))
    by congruence.
  clear H. subst jobs. cbn [fst].
  induction (fst (parseJobStatusOutput output "Running")) as [|job l IH];
    cbn [map]; constructor; [repeat split|exact IH].
Qed.

End CycleExtras.

Section CycleOutcome.

Variable CombinedOutput : PSCommand -> gostring * option error.
Variable SendMail :
  gostring -> option Auth -> gostring -> list gostring -> gostring
  -> option error.

Lemma pollCycle_cases (config : Config) :
  exists tc jobs,
    collectProblematicJobs CombinedOutput config = (tc, Some jobs) /\
    countSendMail tc = 0 /\ Forall (fun e => isSleep e = false) tc /\
    match jobs, digestBody jobs with
    | _ :: _, None =>
        pollCycle CombinedOutput SendMail config =
        ([EvLog ("Checking Veeam backup job statuses..." ++ nl)] ++ tc ++ [],
         None)
    | _, _ =>
        exists tm,
          pollCycle CombinedOutput SendMail config =
          ([EvLog ("Checking Veeam backup job statuses..." ++ nl)] ++ tc
             ++ tm
             ++ [EvLog ("Sleeping for " ++ itoa (CheckIntervalMinutes config)
                          ++ " minutes until next check" ++ nl)]
             ++ [EvSleep (wrap64 (CheckIntervalMinutes config * Minute))],
           Some tt) /\
          countSendMail tm <= 1 /\ Forall (fun e => isSleep e = false) tm
    end.
Proof.
  destruct (collectProblematicJobs_run CombinedOutput config) as [Hres Hcnt].
  pose proof (collect_trace_kinds CombinedOutput config) as Hkinds.
  destruct (collectProblematicJobs CombinedOutput config) as [tc [jobs|]]
    eqn:Ecollect; cbn [result trace fst snd] in *; [|discriminate].
  clear Hres. exists tc, jobs. split; [reflexivity|].
  split; [exact Hcnt|]. split; [exact Hkinds|].
  unfold pollCycle. rewrite Ecollect. cbv [bind].
  destruct jobs as [|job jobs'].
  - cbn [length Nat.ltb Nat.leb]. cbv [ret emit logPrint].
    destruct (digestBody []); eexists; (split; [reflexivity|]);
      split; try (cbn; lia); repeat constructor.
  - change (0 <? length (job :: jobs')) with true. cbv iota.
    rewrite sendEmailAlert_run.
    destruct (digestBody (job :: jobs')) as [body|]; cbv zeta;
      [|reflexivity].
    destruct (SendMail _ _ _ _ _); cbv [ret emit logPrint];
      eexists; (split; [reflexivity|]);
      split; try (cbn; lia); repeat constructor.
Qed.

(** X18: a poll cycle ends in one of two ways.  When there is no
    problematic job, or when the body of the digest can be built, it runs
    to its end, whatever the mail server answers, and its last event, and
    only sleep, is the sleep of the interval.  When the body cannot be
    built the cycle panics before it sends a mail or sleeps. *)
Theorem poll_cycle_outcome (config : Config) :
  exists jobs,
    result (collectProblematicJobs CombinedOutput config) = Some jobs /\
    (jobs = [] \/ digestBody jobs <> None ->
     result (pollCycle CombinedOutput SendMail config) = Some tt /\
     exists t,
       trace (pollCycle CombinedOutput SendMail config)
       = t ++ [EvSleep (wrap64 (CheckIntervalMinutes config * Minute))] /\
       Forall (fun e => isSleep e = false) t) /\
    (jobs <> [] -> digestBody jobs = None ->
     result (pollCycle CombinedOutput SendMail config) = None /\
     Forall (fun e => isSleep e = false)
            (trace (pollCycle CombinedOutput SendMail config)) /\
     countSendMail (trace (pollCycle CombinedOutput SendMail config)) = 0).
Proof.
  destruct (pollCycle_cases config)
    as (tc & jobs & Ecollect & Hcnt & Hkinds & Hcases).
  exists jobs. rewrite Ecollect. split; [reflexivity|].
  assert (Hdone :
            (exists tm,
                pollCycle CombinedOutput SendMail config =
                ([EvLog ("Checking Veeam backup job statuses..." ++ nl)]
                   ++ tc ++ tm
                   ++ [EvLog ("Sleeping for "
                                ++ itoa (CheckIntervalMinutes config)
                                ++ " minutes until next check" ++ nl)]
                   ++ [EvSleep (wrap64 (CheckIntervalMinutes config
                                        * Minute))],
                 Some tt) /\
                countSendMail tm <= 1 /\
                Forall (fun e => isSleep e = false) tm) ->
            result (pollCycle CombinedOutput SendMail config) = Some tt /\
            exists t,
              trace (pollCycle CombinedOutput SendMail config)
              = t ++ [EvSleep (wrap64 (CheckIntervalMinutes config
                                       * Minute))] /\
              Forall (fun e => isSleep e = false) t).
  { intros (tm & -> & _ & Htm). split; [reflexivity|].
    exists ([EvLog ("Checking Veeam backup job statuses..." ++ nl)]
              ++ tc ++ tm
              ++ [EvLog ("Sleeping for "
                           ++ itoa (CheckIntervalMinutes config)
                           ++ " minutes until next check" ++ nl)]).
    split.
    - cbn [trace fst]. rewrite <- !app_assoc. reflexivity.
    - repeat (apply Forall_app; split); try assumption;
        repeat constructor. }
  split.
  - intros Hok. apply Hdone.
    destruct jobs as [|job jobs']; [exact Hcases|].
    destruct (digestBody (job :: jobs')); [exact Hcases|].
    destruct Hok as [H|H]; [discriminate H|exfalso; apply H; reflexivity].
  - intros Hne Hnone. destruct jobs as [|job jobs']; [congruence|].
    rewrite Hnone in Hcases. rewrite Hcases. cbn [result trace fst snd].
    split; [reflexivity|]. split.
    + repeat (apply Forall_app; split); try assumption; repeat constructor.
    + rewrite !countSendMail_app, Hcnt. reflexivity.
Qed.

Lemma pollCycle_shape (config : Config) :
  exists t r res,
    pollCycle CombinedOutput SendMail config = (t ++ r, res) /\
    Forall (fun e => isSleep e = false) t /\ countSendMail t <= 1 /\
    ((r = [] /\ res = None) \/
     (r = [EvSleep (wrap64 (CheckIntervalMinutes config * Minute))]
      /\ res = Some tt)).
Proof.
  destruct (pollCycle_cases config)
    as (tc & jobs & _ & Hcnt & Hkinds & Hcases).
  assert (Hdone :
            (exists tm,
                pollCycle CombinedOutput SendMail config =
                ([EvLog ("Checking Veeam backup job statuses..." ++ nl)]
                   ++ tc ++ tm
                   ++ [EvLog ("Sleeping for "
                                ++ itoa (CheckIntervalMinutes config)
                                ++ " minutes until next check" ++ nl)]
                   ++ [EvSleep (wrap64 (CheckIntervalMinutes config
                                        * Minute))],
                 Some tt) /\
                countSendMail tm <= 1 /\
                Forall (fun e => isSleep e = false) tm) ->
            exists t r res,
              pollCycle CombinedOutput SendMail config = (t ++ r, res) /\
              Forall (fun e => isSleep e = false) t /\
              countSendMail t <= 1 /\
              ((r = [] /\ res = None) \/
               (r = [EvSleep (wrap64 (CheckIntervalMinutes config * Minute))]
                /\ res = Some tt))).
  { intros (tm & Hrun & Hone & Htm). rewrite Hrun.
    exists ([EvLog ("Checking Veeam backup job statuses..." ++ nl)]
              ++ tc ++ tm
              ++ [EvLog ("Sleeping for "
                           ++ itoa (CheckIntervalMinutes config)
                           ++ " minutes until next check" ++ nl)]).
    eexists. eexists. split; [rewrite <- !app_assoc; reflexivity|].
    split; [|split; [|right; split; reflexivity]].
    - repeat (apply Forall_app; split); try assumption;
        repeat constructor.
    - rewrite !countSendMail_app, Hcnt.
      change (countSendMail [EvLog _]) with 0. lia. }
  destruct jobs as [|job jobs']; [apply Hdone; exact Hcases|].
  destruct (digestBody (job :: jobs')); [apply Hdone; exact Hcases|].
  rewrite Hcases.
  exists ([EvLog ("Checking Veeam backup job statuses..." ++ nl)]
            ++ tc ++ []).
  exists []. eexists.
  split; [rewrite (app_nil_r (_ ++ tc ++ [])); reflexivity|].
  split; [|split; [|left; split; reflexivity]].
  - repeat (apply Forall_app; split); try assumption; repeat constructor.
  - rewrite !countSendMail_app, Hcnt. cbn. lia.
Qed.

(** X19: for an interval of 1 to 153722867 minutes the cycle sleeps that
    number of minutes, counted in nanoseconds; the product does not
    overflow. *)
Theorem poll_cycle_sleeps_the_interval (config : Config) (d : Z) :
  (1 <= CheckIntervalMinutes config <= 153722867)%Z ->
  In (EvSleep d) (trace (pollCycle CombinedOutput SendMail config)) ->
  d = (CheckIntervalMinutes config * 60000000000)%Z /\ (0 < d)%Z.
Proof.
  intros Hrange Hin.
  assert (Hd : wrap64 (CheckIntervalMinutes config * Minute)
               = (CheckIntervalMinutes config * 60000000000)%Z).
  { unfold wrap64, Minute.
    rewrite Z.mod_small by lia. lia. }
  destruct (pollCycle_shape config) as (t & r & res & Hrun & Ht & _ & Hr).
  rewrite Hrun in Hin. cbn [trace fst] in Hin.
  apply in_app_or in Hin. destruct Hin as [Hin|Hin].
  - rewrite Forall_forall in Ht. specialize (Ht _ Hin). discriminate Ht.
  - destruct Hr as [[-> _]|[-> _]]; [destruct Hin|].
    destruct Hin as [Hin|[]]. inversion Hin; subst d.
    rewrite Hd. split; [reflexivity|lia].
Qed.

(** One minute more and the product overflows into a negative duration. *)
Example sleep_overflows :
  (wrap64 (153722868 * Minute) < 0)%Z.
Proof. reflexivity. Qed.

End CycleOutcome.

Lemma poll_cycle_outcome_witness :
  result (pollCycle demoOutput
            (fun _ _ _ _ _ => Some (list_ascii_of_string "connection refused"))
            demoConfig) = Some tt.
Proof.
  destruct (poll_cycle_outcome demoOutput
              (fun _ _ _ _ _ =>
                 Some (list_ascii_of_string "connection refused"))
              demoConfig) as (jobs & Hjobs & Hok & _).
  apply Hok. right.
  vm_compute in Hjobs. inversion Hjobs; subst jobs.
  vm_compute. discriminate.
Defined.

Lemma poll_cycle_sleeps_the_interval_witness :
  900000000000%Z = (CheckIntervalMinutes demoConfig * 60000000000)%Z /\
  (0 < 900000000000)%Z.
Proof.
  apply (poll_cycle_sleeps_the_interval demoOutput demoSendMail demoConfig).
  - cbn. lia.
  - vm_compute. auto 20.
Defined.

(** ** Properties of the monitoring loop *)

Section LoopExtras.

Variable CombinedOutputAt : nat -> PSCommand -> gostring * option error.
Variable SendMailAt :
  nat -> gostring -> option Auth -> gostring -> list gostring -> gostring
  -> option error.
Variable config : Config.

(** X20: the loop keeps nothing from one iteration to the next: as long
    as no iteration panics, its events are the events of the poll cycles
    one after the other, each cycle made from the configuration and from
    the answers it gets only; a job still failing is reported again. *)
Theorem monitor_loop_has_no_memory (n i : nat) :
  (forall k, i <= k < i + n ->
             result (pollCycle (CombinedOutputAt k) (SendMailAt k) config)
             = Some tt) ->
  monitorLoop CombinedOutputAt SendMailAt config i n =
  (concat (map (fun k => trace (pollCycle (CombinedOutputAt k)
                                  (SendMailAt k) config))
               (seq i n)),
   Some tt).
Proof.
  revert i; induction n as [|n IH]; intros i Hok; [reflexivity|].
  cbn [monitorLoop seq map concat].
  pose proof (Hok i ltac:(lia)) as Hi.
  destruct (pollCycle (CombinedOutputAt i) (SendMailAt i) config)
    as [t r] eqn:Ecycle.
  cbn [result snd] in Hi. subst r. cbn [bind trace fst].
  rewrite IH by (intros k Hk; apply Hok; lia). reflexivity.
Qed.

(** X21: an iteration that panics is the last one: when the iteration
    [i + k] is the first to panic, the loop does the same, whatever the
    number of iterations it is given beyond it, and nothing happens after
    the events of that iteration. *)
Theorem monitor_loop_stops_at_panic (k i n : nat) :
  (forall j, i <= j < i + k ->
             result (pollCycle (CombinedOutputAt j) (SendMailAt j) config)
             = Some tt) ->
  result (pollCycle (CombinedOutputAt (i + k)) (SendMailAt (i + k)) config)
  = None ->
  k < n ->
  monitorLoop CombinedOutputAt SendMailAt config i n =
  (concat (map (fun j => trace (pollCycle (CombinedOutputAt j)
                                  (SendMailAt j) config))
               (seq i (S k))),
   None).
Proof.
  revert i n; induction k as [|k IH]; intros i n Hok Hpanic Hn;
    (destruct n as [|n]; [lia|]); cbn [monitorLoop].
  - rewrite Nat.add_0_r in Hpanic.
    destruct (pollCycle (CombinedOutputAt i) (SendMailAt i) config)
      as [t r] eqn:Ecycle.
    cbn [result snd] in Hpanic. subst r.
    cbn [bind seq map concat]. rewrite Ecycle. cbn [trace fst].
    rewrite app_nil_r. reflexivity.
  - pose proof (Hok i ltac:(lia)) as Hi.
    destruct (pollCycle (CombinedOutputAt i) (SendMailAt i) config)
      as [t r] eqn:Ecycle.
    cbn [result snd] in Hi. subst r. cbn [bind].
    rewrite (IH (S i) n).
    + cbn [seq map concat]. rewrite Ecycle. reflexivity.
    + intros j Hj. apply Hok. lia.
    + replace (S i + k) with (i + S k) by lia. exact Hpanic.
    + lia.
Qed.

(** X22: the loop sends at most one mail for each iteration. *)
Theorem monitor_loop_sends_at_most_one_mail_per_cycle (n i : nat) :
  countSendMail (trace (monitorLoop CombinedOutputAt SendMailAt config i n))
  <= n.
Proof.
  revert i; induction n as [|n IH]; intros i; [cbn; lia|].
  cbn [monitorLoop]. rewrite bind_trace, countSendMail_app.
  assert (Hcycle : countSendMail
                     (trace (pollCycle (CombinedOutputAt i) (SendMailAt i)
                               config)) <= 1).
  { destruct (pollCycle_shape (CombinedOutputAt i) (SendMailAt i) config)
      as (t & r & res & Hrun & _ & Hone & Hr).
    rewrite Hrun. cbn [trace fst]. rewrite countSendMail_app.
    destruct Hr as [[-> _]|[-> _]]; unfold countSendMail in *;
      cbn [filter isSendMail length]; lia. }
  destruct (result (pollCycle (CombinedOutputAt i) (SendMailAt i) config)).
  - specialize (IH (S i)). lia.
  - change (countSendMail []) with 0. lia.
Qed.

End LoopExtras.

Lemma monitor_loop_has_no_memory_witness :
  monitorLoop (fun _ => demoOutput) (fun _ => demoSendMail) demoConfig 0 2 =
  (concat (map (fun k : nat => trace (pollCycle demoOutput demoSendMail
                                        demoConfig))
               (seq 0 2)),
   Some tt).
Proof.
  apply (monitor_loop_has_no_memory (fun _ => demoOutput)
           (fun _ => demoSendMail) demoConfig 2 0).
  intros k Hk. vm_compute. reflexivity.
Defined.

Lemma monitor_loop_stops_at_panic_witness :
  monitorLoop panicAtSecond (fun _ => demoSendMail) demoConfig 0 5 =
  (concat (map (fun j => trace (pollCycle (panicAtSecond j) demoSendMail
                                  demoConfig))
               (seq 0 2)),
   None).
Proof.
  apply (monitor_loop_stops_at_panic panicAtSecond (fun _ => demoSendMail)
           demoConfig 1 0 5).
  - intros j Hj. assert (Hj0 : j = 0) by lia. subst j.
    vm_compute. reflexivity.
  - vm_compute. reflexivity.
  - lia.
Defined.

Lemma query_fails_iff_process_fails_witness :
  exists jobs err,
    getJobsByStatus deadOutput demoConfig "Failed" =
      ([EvExec (JobsByStatusScript (VeeamPowerShellModule demoConfig)
                  (VeeamServerAddress demoConfig) "Failed")],
       Some (jobs, err)) /\
    jobs = [].
Proof.
  destruct (proj1 (query_fails_iff_process_fails deadOutput demoConfig
                     "Failed")) as (jobs & err & Hrun & Hiff & Hnone).
  exists jobs, err. split; [exact Hrun|].
  apply Hnone, Hiff. discriminate.
Defined.

Lemma long_running_descriptions_witness :
  Forall2
    (fun job parsed =>
       Description job = longRunningPrefix demoConfig ++ Description parsed /\
       Name job = Name parsed /\ Status job = Status parsed /\
       StartTime job = StartTime parsed /\ EndTime job = EndTime parsed /\
       Duration job = Duration parsed)
    [ mkJobStatus "JobB" "Running" "2024-01-01 08:00" "N/A"
        "Long-running job (over 120 minutes): Currently running" "130" ]
    (fst (parseJobStatusOutput
            (fst (wholeMinutesOutput
                    (LongRunningJobsScript
                       (VeeamPowerShellModule demoConfig)
                       (VeeamServerAddress demoConfig)
                       (LongRunningThreshold demoConfig))))
            "Running")).
Proof.
  apply (long_running_descriptions wholeMinutesOutput demoConfig).
  vm_compute. reflexivity.
Defined.
